(** * Event calling from sequencing evidence

    A shallow embedding of [structural_variant/validate/call.py]: the
    [EventCall] class with its two support counters, the selector
    [call_events] and the three resolvers [_call_by_contigs],
    [_call_by_supporting_reads] and [_call_by_flanking_pairs].

    Python values are modelled as the module uses them: integers as [Z],
    strings as [string], lists as [list], [None]-able values as [option],
    a [dict] keyed by position as an association list in insertion order,
    a [set] of strings as a duplicate-free list, and raised exceptions as
    the [Raise] case of a [result]. *)

From Stdlib Require Import ZArith List String Ascii Bool Lia.
From Stdlib Require Import DecimalString PrimFloat Permutation Sorted.
From Stdlib Require SpecFloat FloatOps.
Import ListNotations.
Open Scope string_scope.
Open Scope list_scope.
Open Scope Z_scope.

(** ** Constants of [..constants] *)

Inductive ORIENT := LEFT | RIGHT | ORIENT_NS.
Inductive STRAND := POS | NEG | STRAND_NS.
Inductive SVTYPE := DEL | INS | DUP | INV | TRANS | ITRANS.
Inductive CALL_METHOD := CONTIG | SPLIT | FLANK.

Definition ORIENT_eqb (a b : ORIENT) : bool :=
  match a, b with
  | LEFT, LEFT | RIGHT, RIGHT | ORIENT_NS, ORIENT_NS => true
  | _, _ => false
  end.

Definition SVTYPE_eqb (a b : SVTYPE) : bool :=
  match a, b with
  | DEL, DEL | INS, INS | DUP, DUP | INV, INV | TRANS, TRANS | ITRANS, ITRANS => true
  | _, _ => false
  end.

(** [x in xs] on event types. *)
Definition svtype_in (x : SVTYPE) (xs : list SVTYPE) : bool :=
  existsb (SVTYPE_eqb x) xs.

(** ** Data model *)

(** An aligned read, with the attributes of a pysam segment that the module
    reads.  [targeted_alignment] is the value of the tag
    [PYSAM_READ_FLAGS.TARGETED_ALIGNMENT]: [None] when [has_tag] is false,
    [Some v] when the tag is present with truth value [v]. *)
Record Read := {
  query_name : string;
  template_length : Z;
  reference_start : Z;
  reference_end : Z;
  next_reference_start : Z;
  targeted_alignment : option bool
}.

(** [Interval]: a closed interval of positions. *)
Record Interval := { i_start : Z; i_end : Z }.

Record Breakpoint := {
  chr : string;
  start : Z;
  end_ : Z;
  orient : ORIENT;
  strand : STRAND
}.

(** A breakpoint read as the interval it spans (the class derives from
    [Interval]). *)
Definition bp_interval (b : Breakpoint) : Interval :=
  {| i_start := start b; i_end := end_ b |}.

Record BreakpointPair := {
  break1 : Breakpoint;
  break2 : Breakpoint;
  stranded : bool;
  opposing_strands : bool;
  untemplated_sequence : option string;
  data : list (string * string)
}.

Definition interchromosomal (p : BreakpointPair) : bool :=
  negb (String.eqb (chr (break1 p)) (chr (break2 p))).

Record Contig := {
  ctg_seq : string;
  alignments : list (Read * option Read);
  remap_score : Z
}.

(** [Evidence] extends [BreakpointPair]; [ev_pair] is the inherited part. *)
Record Evidence := {
  ev_pair : BreakpointPair;
  bam_cache_stranded : bool;
  split_reads : list Read * list Read;
  flanking_pairs : list (Read * Read);
  contigs : list Contig;
  read_length : Z;
  min_expected_fragment_size : Z;
  max_expected_fragment_size : Z;
  min_flanking_pairs_resolution : Z;
  min_splits_reads_resolution : Z;
  min_non_target_aligned_split_reads : Z;
  min_linking_split_reads : Z
}.

Record EventCall := {
  ec_pair : BreakpointPair;
  evidence : Evidence;
  event_type : SVTYPE;
  contig : option Contig;
  call_method : CALL_METHOD * CALL_METHOD;
  contig_alignment : option (Read * option Read)
}.

(** ** Exceptions *)

Inductive exn_kind :=
  | TypeError | NameError | ValueError | AttributeError | KeyError
  | AssertionError | UserWarning | NotImplementedError | NotSpecifiedError
  | OverflowError | ZeroDivisionError.

(** The arguments an exception of this module is built with. *)
Inductive exn_arg :=
  | AStr (s : string)
  | AInt (z : Z)
  | AInterval (i : Interval)
  | ABreakpoint (b : option Breakpoint)
  | ASvtype (t : SVTYPE)
  | ASvtypes (ts : list SVTYPE)
  | AEvidence (e : Evidence).

Record exn := Exn { kind : exn_kind; args : list exn_arg }.

Inductive result (A : Type) :=
  | Ok (a : A)
  | Raise (e : exn).
Arguments Ok {A} a.
Arguments Raise {A} e.

Definition bind {A B} (r : result A) (k : A -> result B) : result B :=
  match r with
  | Ok a => k a
  | Raise e => Raise e
  end.

Notation "x <- e ;; k" := (bind e (fun x => k))
  (at level 61, e at next level, right associativity).
Notation "e ;;; k" := (bind e (fun _ => k))
  (at level 61, right associativity).

Definition raise {A} (k : exn_kind) (a : list exn_arg) : result A :=
  Raise (Exn k a).

(** ** Python built-ins used by the module *)

(** A [set] of strings, kept as a duplicate-free list. *)
Definition str_in (x : string) (s : list string) : bool :=
  existsb (String.eqb x) s.

Definition set_add (x : string) (s : list string) : list string :=
  if str_in x s then s else s ++ [x].

(** [set(xs)] *)
Definition set_of (xs : list string) : list string :=
  fold_left (fun s x => set_add x s) xs [].

(** [a & b] *)
Definition set_inter (a b : list string) : list string :=
  filter (fun x => str_in x b) a.

(** [len(xs)] as a Python integer. *)
Definition len {A} (xs : list A) : Z := Z.of_nat (List.length xs).

(** [min(xs)] and [max(xs)]: [ValueError] on an empty sequence. *)
Definition py_min (xs : list Z) : result Z :=
  match xs with
  | [] => raise ValueError [AStr "min() arg is an empty sequence"]
  | x :: r => Ok (fold_left Z.min r x)
  end.

Definition py_max (xs : list Z) : result Z :=
  match xs with
  | [] => raise ValueError [AStr "max() arg is an empty sequence"]
  | x :: r => Ok (fold_left Z.max r x)
  end.

(** [sep.join(xs)] *)
Definition join (sep : string) (xs : list string) : string :=
  String.concat sep xs.

(** [sorted(xs)] on strings: insertion sort by code point order. *)
Fixpoint insert_sorted (x : string) (xs : list string) : list string :=
  match xs with
  | [] => [x]
  | y :: r => if String.leb x y then x :: xs else y :: insert_sorted x r
  end.

Definition sorted (xs : list string) : list string :=
  fold_right insert_sorted [] xs.

(** A [dict] from position to the list of reads seen there, in insertion
    order of its keys. *)
Definition posdict := list (Z * list Read).

Definition keys (d : posdict) : list Z := map fst d.

Definition has_key (pos : Z) (d : posdict) : bool :=
  existsb (fun kv => Z.eqb (fst kv) pos) d.

(** [d[pos]], for a key of [d]. *)
Definition lookup (pos : Z) (d : posdict) : list Read :=
  match find (fun kv => Z.eqb (fst kv) pos) d with
  | Some kv => snd kv
  | None => []
  end.

(** [if pos not in d: d[pos] = []] followed by [d[pos].append(read)]. *)
Fixpoint dict_append (pos : Z) (read : Read) (d : posdict) : posdict :=
  match d with
  | [] => [(pos, [read])]
  | (k, rs) :: r =>
      if Z.eqb k pos then (k, rs ++ [read]) :: r
      else (k, rs) :: dict_append pos read r
  end.

(** Binding of the arguments of a call against a signature: [params] are
    the parameter names after [self], the first [required] of them have no
    default; the call gives [npos] positional arguments and the keywords
    [kws]. *)
Definition bind_arguments (fname : string) (params : list string)
    (required npos : nat) (kws : list string) : result unit :=
  if Nat.ltb (List.length params) npos then
    raise TypeError [AStr (fname ++ "() takes too many positional arguments")%string]
  else
    match find (fun k => negb (str_in k params)) kws with
    | Some k =>
        raise TypeError
          [AStr (fname ++ "() got an unexpected keyword argument '" ++ k ++ "'")%string]
    | None =>
        match find (fun k => str_in k (firstn npos params)) kws with
        | Some k =>
            raise TypeError
              [AStr (fname ++ "() got multiple values for argument '" ++ k ++ "'")%string]
        | None =>
            match find (fun p => negb (str_in p kws))
                       (skipn npos (firstn required params)) with
            | Some p =>
                raise TypeError
                  [AStr (fname ++ "() missing required positional argument '" ++ p ++ "'")%string]
            | None => Ok tt
            end
        end
    end.

(** ** [Interval], [Breakpoint] and [BreakpointPair] *)

(** Modelled from the spec: [Interval.overlaps] of [..interval], which is
    not part of the sources at hand.  Intervals are closed, so two of them
    overlap when they share a position. *)
Definition overlaps (a b : Interval) : bool :=
  negb (Z.ltb (i_end a) (i_start b)) && negb (Z.gtb (i_start a) (i_end b)).

(** Modelled from the spec: [len(interval)], the number of positions of a
    closed interval. *)
Definition interval_len (i : Interval) : Z := i_end i - i_start i + 1.

(** Modelled from the spec: the constructor [Breakpoint(chr, start, end,
    orient, strand)] of [..breakpoint].  [end] defaults to [start]; an
    interval that ends before it starts is refused with [AttributeError],
    the error the flanking resolver catches around its two guarded
    constructions. *)
Definition new_Breakpoint (c : string) (s : Z) (e : option Z)
    (o : ORIENT) (st : STRAND) : result Breakpoint :=
  let e' := match e with Some e' => e' | None => s end in
  if Z.ltb e' s then
    raise AttributeError [AStr "interval start > end is not allowed"]
  else Ok {| chr := c; start := s; end_ := e'; orient := o; strand := st |}.

(** Modelled from the spec: [BreakpointPair.__init__] of [..breakpoint]
    keeps the two breakpoints and the flags it is given. *)
Definition BreakpointPair___init__ (b1 b2 : Breakpoint) (stranded_ : bool)
    (opposing : bool) (untemplated : option string)
    (data_ : list (string * string)) : result BreakpointPair :=
  Ok {| break1 := b1; break2 := b2; stranded := stranded_;
        opposing_strands := opposing; untemplated_sequence := untemplated;
        data := data_ |}.

(** ** Collaborators

    Operations the module calls but does not define: they live in
    [..bam.read], [..breakpoint] and the evidence class, or in the Python
    runtime.  All results are stated for every choice of them. *)
Class Collaborators := {
  (** [breakpoint_pos(read, orient)]; may raise [AttributeError]. *)
  breakpoint_pos : Read -> ORIENT -> result Z;
  (** [BreakpointPair.classify(pair)] *)
  classify : BreakpointPair -> list SVTYPE;
  (** [BreakpointPair.call_breakpoint_pair(read1, read2)]; may raise
      [UserWarning]. *)
  call_breakpoint_pair : Read -> option Read -> result BreakpointPair;
  (** [ev.putative_event_types()] *)
  putative_event_types : Evidence -> list SVTYPE;
  (** [ev.compute_fragment_size(read, mate)] *)
  compute_fragment_size : Evidence -> Read -> Read -> Interval;
  (** [repr] of an interval and of a breakpoint. *)
  repr_interval : Interval -> string;
  repr_breakpoint : Breakpoint -> string;
  (** The order in which a [set] of strings is iterated, as a function of
      its elements in insertion order. *)
  set_iter : list string -> list string
}.

Section Calling.
Context {collab : Collaborators}.

(** [repr] of an exception argument. *)
Definition repr_arg (a : exn_arg) : string :=
  match a with
  | AStr s => ("'" ++ s ++ "'")%string
  | AInt z => NilZero.string_of_int (Z.to_int z)
  | AInterval i => repr_interval i
  | ABreakpoint (Some b) => repr_breakpoint b
  | ABreakpoint None => "None"
  | ASvtype _ | ASvtypes _ | AEvidence _ => "<object>"
  end.

(** [str(err)]: the argument itself when there is one, the [repr] of the
    tuple of arguments when there are several. *)
Definition str_exn (e : exn) : string :=
  match args e with
  | [] => ""
  | [AStr s] => s
  | [a] => repr_arg a
  | l => ("(" ++ join ", " (map repr_arg l) ++ ")")%string
  end.

(** ** [EventCall] *)

(** [CALL_METHOD.enforce(value)]: the value itself when it is one of the
    constants; [None] is none of them. *)
Definition CALL_METHOD_enforce (m : option CALL_METHOD) : result CALL_METHOD :=
  match m with
  | Some m' => Ok m'
  | None => raise KeyError [AStr "None"]
  end.

(** [EventCall.__init__]; [SVTYPE.enforce] is the identity on the constants
    of [SVTYPE]. *)
Definition EventCall___init__ (b1 b2 : Breakpoint) (source_evidence : Evidence)
    (event_type_ : SVTYPE) (call_method_ break2_call_method : option CALL_METHOD)
    (contig_ : option Contig) (contig_alignment_ : option (Read * option Read))
    (untemplated : option string) : result EventCall :=
  let untemplated :=
    match untemplated with
    | None => untemplated_sequence (ev_pair source_evidence)
    | Some s => Some s
    end in
  bpp <- BreakpointPair___init__ b1 b2
           (stranded (ev_pair source_evidence) && bam_cache_stranded source_evidence)
           (opposing_strands (ev_pair source_evidence))
           untemplated
           (data (ev_pair source_evidence)) ;;
  if negb (svtype_in event_type_ (classify (ev_pair source_evidence))) then
    raise ValueError
      [AStr "event_type is not compatible with the evidence source allowable types";
       ASvtype event_type_; AEvidence source_evidence]
  else
    let mk cm :=
      {| ec_pair := bpp; evidence := source_evidence; event_type := event_type_;
         contig := contig_; call_method := cm;
         contig_alignment := contig_alignment_ |} in
    match contig_ with
    | Some _ =>
        match call_method_, break2_call_method with
        | None, None => Ok (mk (CONTIG, CONTIG))
        | _, _ => raise AttributeError [AStr "contig overrides call method arguments"]
        end
    | None =>
        match break2_call_method with
        | Some _ =>
            m1 <- CALL_METHOD_enforce call_method_ ;;
            m2 <- CALL_METHOD_enforce break2_call_method ;;
            Ok (mk (m1, m2))
        | None =>
            m1 <- CALL_METHOD_enforce call_method_ ;;
            m2 <- CALL_METHOD_enforce call_method_ ;;
            Ok (mk (m1, m2))
        end
    end.

(** The signature of [EventCall.__init__] after [self]; the first five
    parameters have no default. *)
Definition EventCall_params : list string :=
  ["b1"; "b2"; "source_evidence"; "event_type"; "call_method";
   "break2_call_method"; "contig"; "contig_alignment"; "untemplated_sequence"].

(** A call [EventCall(...)] with [npos] positional arguments and the
    keywords [kws]: the arguments are bound first, then [__init__] runs. *)
Definition new_EventCall (npos : nat) (kws : list string)
    (b1 b2 : Breakpoint) (source_evidence : Evidence) (event_type_ : SVTYPE)
    (call_method_ break2_call_method : option CALL_METHOD)
    (contig_ : option Contig) (contig_alignment_ : option (Read * option Read))
    (untemplated : option string) : result EventCall :=
  bind_arguments "__init__" EventCall_params 5 npos kws ;;;
  EventCall___init__ b1 b2 source_evidence event_type_ call_method_
    break2_call_method contig_ contig_alignment_ untemplated.

(** *** [count_flanking_support] *)

(** A Python number: [statistics.median] gives back an element of the data
    (an integer) or the mean of two of them (a float). *)
Inductive PyNum := PInt (z : Z) | PFloat (f : float).

(** [float(z)] for an integer: the double nearest to [z], ties to even;
    [OverflowError] when [z] is beyond the range of doubles. *)
Definition float_of_Z (z : Z) : result float :=
  match SpecFloat.binary_normalize FloatOps.prec FloatOps.emax z 0 false with
  | SpecFloat.S754_infinity _ =>
      raise OverflowError [AStr "int too large to convert to float"]
  | sf => Ok (FloatOps.SF2Prim sf)
  end.

(** [z / 2] for an integer [z] (true division): the double nearest to the
    exact quotient, [OverflowError] when it is beyond the range of doubles. *)
Definition half_of_Z (z : Z) : result float :=
  match SpecFloat.binary_normalize FloatOps.prec FloatOps.emax z (-1) false with
  | SpecFloat.S754_infinity _ =>
      raise OverflowError [AStr "integer division result too large for a float"]
  | sf => Ok (FloatOps.SF2Prim sf)
  end.

(** The conversion of a numeric argument to a double. *)
Definition to_float (n : PyNum) : result float :=
  match n with
  | PInt z => float_of_Z z
  | PFloat f => Ok f
  end.

(** [sorted(xs)] on integers. *)
Fixpoint insert_sorted_Z (x : Z) (xs : list Z) : list Z :=
  match xs with
  | [] => [x]
  | y :: r => if Z.leb x y then x :: xs else y :: insert_sorted_Z x r
  end.

Definition sorted_Z (xs : list Z) : list Z := fold_right insert_sorted_Z [] xs.

(** [statistics.median(data)] for non-empty [data]: the middle element of
    the sorted data, or half the sum of the two middle elements. *)
Definition median (xs : list Z) : result PyNum :=
  let sorted_data := sorted_Z xs in
  let n := List.length sorted_data in
  if Nat.eqb (Nat.modulo n 2) 1 then Ok (PInt (nth (Nat.div n 2) sorted_data 0))
  else
    let i := Nat.div n 2 in
    m <- half_of_Z (nth (Nat.pred i) sorted_data 0 + nth i sorted_data 0) ;;
    Ok (PFloat m).

(** [insert - median] *)
Definition minus_median (insert : Z) (m : PyNum) : result PyNum :=
  match m with
  | PInt z => Ok (PInt (insert - z))
  | PFloat f => i <- float_of_Z insert ;; Ok (PFloat (PrimFloat.sub i f))
  end.

(** [math.pow(x, 2)]: the square of [x] as a double; an infinite result from
    a finite argument is a range error. *)
Definition math_pow2 (x : PyNum) : result float :=
  xf <- to_float x ;;
  let r := PrimFloat.mul xf xf in
  if PrimFloat.is_finite xf && PrimFloat.is_infinity r then
    raise OverflowError [AStr "math range error"]
  else Ok r.

(** [math.sqrt(x)]: a result that is not a number, from an argument that is
    one, is a domain error. *)
Definition math_sqrt (x : float) : result float :=
  let r := PrimFloat.sqrt x in
  if PrimFloat.is_nan r && negb (PrimFloat.is_nan x) then
    raise ValueError [AStr "math domain error"]
  else Ok r.

(** [err / n] for a float [err] and an integer [n]. *)
Definition float_div_int (err : float) (n : Z) : result float :=
  nf <- float_of_Z n ;;
  if PrimFloat.eqb nf PrimFloat.zero then
    raise ZeroDivisionError [AStr "float division by zero"]
  else Ok (PrimFloat.div err nf).

(** The loop that sums the squared distances to the median; the integer 0
    the sum starts from enters the first addition as the double 0.0. *)
Fixpoint squared_error (fragment_sizes : list Z) (med : PyNum) (err : float)
    : result float :=
  match fragment_sizes with
  | [] => Ok err
  | insert :: rest =>
      d <- minus_median insert med ;;
      sq <- math_pow2 d ;;
      squared_error rest med (PrimFloat.add err sq)
  end.

(** The name [exp_isize_range] is bound nowhere in the module, neither as a
    local nor as a global: evaluating it raises [NameError]. *)
Definition exp_isize_range : result Interval :=
  raise NameError [AStr "name 'exp_isize_range' is not defined"].

(** The test of the loop of [count_flanking_support], with the left to
    right, short-circuit evaluation of [and] and [or]. *)
Definition flanking_read_counts (et : SVTYPE) (isize : Z) : result bool :=
  c1 <- (if SVTYPE_eqb et INS
         then r <- exp_isize_range ;; Ok (Z.ltb isize (i_start r))
         else Ok false) ;;
  if (c1 : bool) then Ok true
  else
    c2 <- (if SVTYPE_eqb et DEL
           then r <- exp_isize_range ;; Ok (Z.gtb isize (i_end r))
           else Ok false) ;;
    if (c2 : bool) then Ok true
    else Ok (negb (svtype_in et [DEL; INS])).

Fixpoint flanking_loop (et : SVTYPE) (reads : list Read)
    (support : list string) (fragment_sizes : list Z)
    : result (list string * list Z) :=
  match reads with
  | [] => Ok (support, fragment_sizes)
  | read :: rest =>
      let isize := Z.abs (template_length read) in
      c <- flanking_read_counts et isize ;;
      if (c : bool) then
        flanking_loop et rest (set_add (query_name read) support)
          (fragment_sizes ++ [isize])
      else flanking_loop et rest support fragment_sizes
  end.

(** [itertools.chain.from_iterable(flanking_pairs)] *)
Definition chain_pairs (ps : list (Read * Read)) : list Read :=
  flat_map (fun p => [fst p; snd p]) ps.

Definition count_flanking_support (self : EventCall)
    : result (Z * PyNum * PyNum) :=
  sf <- flanking_loop (event_type self)
          (chain_pairs (flanking_pairs (evidence self))) [] [] ;;
  let support := fst sf in
  let fragment_sizes := snd sf in
  if Z.gtb (len support) 0 then
    med <- median fragment_sizes ;;
    err <- squared_error fragment_sizes med PrimFloat.zero ;;
    err <- float_div_int err (len fragment_sizes) ;;
    stdev <- math_sqrt err ;;
    Ok (len support, med, PFloat stdev)
  else Ok (0, PInt 0, PInt 0).

(** *** [count_split_read_support] *)

(** [read.has_tag(T) and read.get_tag(T)] for the targeted-alignment tag. *)
Definition is_targeted (read : Read) : bool :=
  match targeted_alignment read with
  | Some v => v
  | None => false
  end.

(** One of the two loops of [count_split_read_support], over the reads of
    one side and that side's breakpoint; an [AttributeError] raised for a
    read is swallowed, any other exception leaves the function. *)
Fixpoint split_support_loop (reads : list Read) (b : Breakpoint)
    (support realigns : list string) : result (list string * list string) :=
  match reads with
  | [] => Ok (support, realigns)
  | read :: rest =>
      match breakpoint_pos read (orient b) with
      | Ok bpos =>
          if overlaps {| i_start := bpos; i_end := bpos |} (bp_interval b) then
            split_support_loop rest b
              (set_add (query_name read) support)
              (if is_targeted read then set_add (query_name read) realigns
               else realigns)
          else split_support_loop rest b support realigns
      | Raise e =>
          match kind e with
          | AttributeError => split_support_loop rest b support realigns
          | _ => Raise e
          end
      end
  end.

Definition count_split_read_support (self : EventCall)
    : result (Z * Z * Z * Z * Z) :=
  s1 <- split_support_loop (fst (split_reads (evidence self)))
          (break1 (ec_pair self)) [] [] ;;
  s2 <- split_support_loop (snd (split_reads (evidence self)))
          (break2 (ec_pair self)) [] [] ;;
  let support1 := fst s1 in
  let realigns1 := snd s1 in
  let support2 := fst s2 in
  let realigns2 := snd s2 in
  Ok (len support1, len realigns1, len support2, len realigns2,
      len (set_inter support1 support2)).

(** *** [__hash__] and [__eq__] *)

(** A Python object: its identity and its state. *)
Record Object (A : Type) := { id_ : nat; value : A }.
Arguments id_ {A} o.
Arguments value {A} o.

(** The values a comparison method can hand back. *)
Inductive PyVal := PyTrue | PyFalse | PyNone | PyNotImplemented.

(** [bool(v)] *)
Definition truth (v : PyVal) : bool :=
  match v with
  | PyTrue | PyNotImplemented => true
  | PyFalse | PyNone => false
  end.

(** [object.__eq__(self, other)]: comparison by identity. *)
Definition object___eq__ {A B} (self : Object A) (other : Object B) : PyVal :=
  if Nat.eqb (id_ self) (id_ other) then PyTrue else PyNotImplemented.

Definition EventCall___hash__ (self : Object EventCall) : result Z :=
  raise NotImplementedError [AStr "this object type does not support hashing"].

(** The body of [__eq__] evaluates [object.__eq__(self, other)] as an
    expression statement and ends without a [return]. *)
Definition EventCall___eq__ {B} (self : Object EventCall) (other : Object B)
    : PyVal :=
  let _ := object___eq__ self other in
  PyNone.

(** [self == other] with an [EventCall] on the left: the method of the left
    operand answers unless it gives [NotImplemented]. *)
Definition EventCall_equals {B} (self : Object EventCall) (other : Object B)
    : bool :=
  match EventCall___eq__ self other with
  | PyNotImplemented => Nat.eqb (id_ self) (id_ other)
  | v => truth v
  end.

(** ** The resolvers *)

(** *** [_call_by_contigs] *)

Definition opt_str_is_empty (s : option string) : bool :=
  match s with
  | Some s' => String.eqb s' ""
  | None => false
  end.

(** The inner loop over the alignments of one contig.  The constructor is
    called with four positional arguments and the keywords [contig],
    [alignment], [opposing_strands] and [untemplated_sequence]. *)
Fixpoint contig_alignments_loop (ev : Evidence) (event_type_ : SVTYPE)
    (ctg : Contig) (als : list (Read * option Read)) (events : list EventCall)
    : result (list EventCall) :=
  match als with
  | [] => Ok events
  | (read1, read2) :: rest =>
      match call_breakpoint_pair read1 read2 with
      | Raise e =>
          match kind e with
          | UserWarning => contig_alignments_loop ev event_type_ ctg rest events
          | _ => Raise e
          end
      | Ok bpp =>
          if negb (Bool.eqb (opposing_strands bpp) (opposing_strands (ev_pair ev)))
             || (SVTYPE_eqb event_type_ INS
                 && opt_str_is_empty (untemplated_sequence bpp))
             || negb (svtype_in event_type_ (classify bpp))
          then contig_alignments_loop ev event_type_ ctg rest events
          else
            new_event <-
              new_EventCall 4
                ["contig"; "alignment"; "opposing_strands"; "untemplated_sequence"]
                (break1 bpp) (break2 bpp) ev event_type_
                None None (Some ctg) None (untemplated_sequence bpp) ;;
            contig_alignments_loop ev event_type_ ctg rest (events ++ [new_event])
      end
  end.

Fixpoint contigs_loop (ev : Evidence) (event_type_ : SVTYPE)
    (ctgs : list Contig) (events : list EventCall) : result (list EventCall) :=
  match ctgs with
  | [] => Ok events
  | ctg :: rest =>
      events' <- contig_alignments_loop ev event_type_ ctg (alignments ctg) events ;;
      contigs_loop ev event_type_ rest events'
  end.

Definition _call_by_contigs (ev : Evidence) (event_type_ : SVTYPE)
    : result (list EventCall) :=
  contigs_loop ev event_type_ (contigs ev) [].

(** *** [_call_by_flanking_pairs] *)

(** The loop over the flanking pairs: the count of the pairs kept and the
    positions they contribute to each side. *)
Fixpoint flanking_positions (ev : Evidence) (event_type_ : SVTYPE)
    (pairs : list (Read * Read)) (flanking_count : Z)
    (first_positions second_positions : list Z) : Z * list Z * list Z :=
  match pairs with
  | [] => (flanking_count, first_positions, second_positions)
  | (read, mate) :: rest =>
      let fragment_size := compute_fragment_size ev read mate in
      let skip :=
        match event_type_ with
        | DEL => Z.leb (i_end fragment_size) (max_expected_fragment_size ev)
        | INS => Z.geb (i_start fragment_size) (min_expected_fragment_size ev)
        | _ => false
        end in
      if skip then
        flanking_positions ev event_type_ rest flanking_count
          first_positions second_positions
      else
        flanking_positions ev event_type_ rest (flanking_count + 1)
          (first_positions ++
             [reference_start read + 1; reference_end read;
              next_reference_start mate + 1])
          (second_positions ++
             [reference_start mate + 1; reference_end mate;
              next_reference_start read + 1])
  end.

Definition msg_insufficient_coverage : string :=
  "insufficient coverage to call by flanking reads".
Definition msg_coverage_overlaps : string :=
  "flanking read coverage overlaps. cannot call by flanking reads".
Definition msg_coverage_too_large : string :=
  "Cannot resolve by flanking reads. Coverage interval of flanking reads is larger than expected for normal variation. It is likely there are flanking reads for multiple events".
Definition msg_incompatible : string :=
  "input breakpoint is incompatible with flanking coverage region".
Definition msg_no_orientation : string :=
  "Cannot call by flanking if orientation was not given".

(** A guarded construction: [try: Breakpoint(...) except AttributeError:
    raise AssertionError(...)]. *)
Definition guarded_Breakpoint (c : string) (s e : Z) (o : ORIENT) (st : STRAND)
    (cover : Interval) (other : option Breakpoint) : result Breakpoint :=
  match new_Breakpoint c s (Some e) o st with
  | Ok b => Ok b
  | Raise err =>
      match kind err with
      | AttributeError =>
          raise AssertionError [AStr msg_incompatible; AInterval cover; ABreakpoint other]
      | _ => Raise err
      end
  end.

(** A breakpoint given by the caller is a point or an interval, of length at
    least one, hence true where the function tests it. *)
Definition _call_by_flanking_pairs (ev : Evidence) (event_type_ : SVTYPE)
    (first_breakpoint_called second_breakpoint_called : option Breakpoint)
    : result (Breakpoint * Breakpoint) :=
  match first_breakpoint_called, second_breakpoint_called with
  | Some _, Some _ =>
      raise ValueError
        [AStr "do not bother calling when both breakpoints have already been called"]
  | _, _ =>
      let '(flanking_count, first_positions, second_positions) :=
        flanking_positions ev event_type_ (flanking_pairs ev) 0 [] [] in
      if Z.ltb flanking_count (min_flanking_pairs_resolution ev) then
        raise AssertionError [AStr msg_insufficient_coverage]
      else
        lo1 <- py_min first_positions ;;
        hi1 <- py_max first_positions ;;
        let cover1 := {| i_start := lo1; i_end := hi1 |} in
        lo2 <- py_min second_positions ;;
        hi2 <- py_max second_positions ;;
        let cover2 := {| i_start := lo2; i_end := hi2 |} in
        let p := ev_pair ev in
        if negb (interchromosomal p) && overlaps cover1 cover2 then
          raise AssertionError
            [AStr msg_coverage_overlaps; AInterval cover1; AInterval cover2]
        else if Z.gtb (interval_len cover1 + read_length ev * 2)
                      (max_expected_fragment_size ev)
                || Z.gtb (interval_len cover2 + read_length ev * 2)
                         (max_expected_fragment_size ev) then
          raise AssertionError
            [AStr msg_coverage_too_large; AInterval cover1; AInterval cover2;
             AInt (max_expected_fragment_size ev)]
        else
          first <-
            match first_breakpoint_called with
            | Some b => Ok b
            | None =>
                let max_breakpoint_width :=
                  max_expected_fragment_size ev - interval_len cover1
                  - read_length ev * 2 in
                match orient (break1 p) with
                | LEFT =>
                    let e := i_end cover1 + max_breakpoint_width in
                    let e :=
                      if negb (interchromosomal p) then
                        let e := Z.min e (i_start cover2 - 1) in
                        match second_breakpoint_called with
                        | Some sb => Z.min e (end_ sb - 1)
                        | None => e
                        end
                      else e in
                    guarded_Breakpoint (chr (break1 p)) (i_end cover1) e
                      (orient (break1 p)) (strand (break1 p))
                      cover1 second_breakpoint_called
                | RIGHT =>
                    new_Breakpoint (chr (break1 p))
                      (Z.max (i_start cover1 - max_breakpoint_width) 1)
                      (Some (Z.max (i_start cover1) 1))
                      (orient (break1 p)) (strand (break1 p))
                | ORIENT_NS => raise NotSpecifiedError [AStr msg_no_orientation]
                end
            end ;;
          second <-
            match second_breakpoint_called with
            | Some b => Ok b
            | None =>
                let max_breakpoint_width :=
                  max_expected_fragment_size ev - interval_len cover2
                  - read_length ev * 2 in
                match orient (break2 p) with
                | LEFT =>
                    new_Breakpoint (chr (break2 p)) (i_end cover2)
                      (Some (i_end cover2 + max_breakpoint_width))
                      (orient (break2 p)) (strand (break2 p))
                | RIGHT =>
                    let s := Z.max (i_start cover2 - max_breakpoint_width) 1 in
                    let s :=
                      if negb (interchromosomal p) then
                        Z.max (Z.max s (i_end cover1 + 1)) (start first + 1)
                      else s in
                    guarded_Breakpoint (chr (break2 p)) s (i_start cover2)
                      (orient (break2 p)) (strand (break2 p))
                      cover2 (Some first)
                | ORIENT_NS => raise NotSpecifiedError [AStr msg_no_orientation]
                end
            end ;;
          Ok (first, second)
  end.

(** *** [_call_by_supporting_reads] *)

(** The first loop over the split reads of one side: the candidate position
    of a read is its breakpoint position plus one. *)
Fixpoint collect_positions (reads : list Read) (o : ORIENT) (d : posdict)
    : result posdict :=
  match reads with
  | [] => Ok d
  | read :: rest =>
      match breakpoint_pos read o with
      | Ok bpos => collect_positions rest o (dict_append (bpos + 1) read d)
      | Raise e =>
          match kind e with
          | AttributeError => collect_positions rest o d
          | _ => Raise e
          end
      end
  end.

(** The reads of a position that are not targeted re-alignments. *)
Definition non_targeted (rs : list Read) : Z :=
  len (filter (fun r => negb (is_targeted r)) rs).

(** A position stays in the dictionary when neither [del] is reached. *)
Definition position_kept (ev : Evidence) (rs : list Read) : bool :=
  if Z.ltb (len rs) (min_splits_reads_resolution ev) then false
  else negb (Z.ltb (non_targeted rs) (min_non_target_aligned_split_reads ev)).

Definition prune_positions (ev : Evidence) (d : posdict) : posdict :=
  filter (fun kv => position_kept ev (snd kv)) d.

Definition candidate_positions (ev : Evidence) (reads : list Read) (b : Breakpoint)
    : result posdict :=
  d <- collect_positions reads (orient b) [] ;;
  Ok (prune_positions ev d).

Definition same_chr (ev : Evidence) : bool :=
  String.eqb (chr (break1 (ev_pair ev))) (chr (break2 (ev_pair ev))).

(** The number of reads at [second] whose name is among the names of the
    reads at [first]. *)
Definition links (pos1 pos2 : posdict) (first second : Z) : Z :=
  let read_names := set_of (map query_name (lookup first pos1)) in
  len (filter (fun r => str_in (query_name r) read_names) (lookup second pos2)).

(** The call built for a pair of split-read positions. *)
Definition split_call (ev : Evidence) (event_type_ : SVTYPE) (first second : Z)
    : result EventCall :=
  let p := ev_pair ev in
  first_breakpoint <-
    new_Breakpoint (chr (break1 p)) first None (orient (break1 p)) (strand (break1 p)) ;;
  second_breakpoint <-
    new_Breakpoint (chr (break2 p)) second None (orient (break2 p)) (strand (break2 p)) ;;
  new_EventCall 4 ["call_method"] first_breakpoint second_breakpoint ev event_type_
    (Some SPLIT) None None None None.

(** The loop over [itertools.product(pos1, pos2)]. *)
Fixpoint linked_loop (ev : Evidence) (event_type_ : SVTYPE) (pos1 pos2 : posdict)
    (pairs : list (Z * Z)) (linked_pairings : list EventCall)
    : result (list EventCall) :=
  match pairs with
  | [] => Ok linked_pairings
  | (first, second) :: rest =>
      if same_chr ev && Z.geb first second then
        linked_loop ev event_type_ pos1 pos2 rest linked_pairings
      else if Z.ltb (links pos1 pos2 first second) (min_linking_split_reads ev) then
        linked_loop ev event_type_ pos1 pos2 rest linked_pairings
      else
        call <- split_call ev event_type_ first second ;;
        linked_loop ev event_type_ pos1 pos2 rest (linked_pairings ++ [call])
  end.

(** The loop over [itertools.product(f, s)]. *)
Fixpoint unlinked_loop (ev : Evidence) (event_type_ : SVTYPE)
    (pairs : list (Z * Z)) (linked_pairings : list EventCall)
    : result (list EventCall) :=
  match pairs with
  | [] => Ok linked_pairings
  | (first, second) :: rest =>
      if same_chr ev && Z.geb first second then
        unlinked_loop ev event_type_ rest linked_pairings
      else
        call <- split_call ev event_type_ first second ;;
        unlinked_loop ev event_type_ rest (linked_pairings ++ [call])
  end.

Definition Z_in (x : Z) (xs : list Z) : bool := existsb (Z.eqb x) xs.

(** [[p for p in pos if p not in [start of the side's breakpoint of t for t
    in linked_pairings]]] *)
Definition leftover (pos : posdict) (used : list Z) : list Z :=
  filter (fun p => negb (Z_in p used)) (keys pos).

(** [sys_copy(b)] with [start] and [end] set to [pos]. *)
Definition at_position (b : Breakpoint) (pos : Z) : Breakpoint :=
  {| chr := chr b; start := pos; end_ := pos; orient := orient b; strand := strand b |}.

(** [except (AssertionError, UserWarning)] *)
Definition caught (e : exn) : bool :=
  match kind e with
  | AssertionError | UserWarning => true
  | _ => false
  end.

(** One [try] block of the mixed and flanking stages: bounding by flanking
    pairs, then the construction of the call. *)
Definition flanking_call (ev : Evidence) (event_type_ : SVTYPE)
    (first_called second_called : option Breakpoint)
    (kws : list string) (m1 m2 : option CALL_METHOD) : result EventCall :=
  fs <- _call_by_flanking_pairs ev event_type_ first_called second_called ;;
  new_EventCall 4 kws (fst fs) (snd fs) ev event_type_ m1 m2 None None None.

Fixpoint mixed_first_loop (ev : Evidence) (event_type_ : SVTYPE)
    (positions : list Z) (linked_pairings : list EventCall)
    (error_messages : list string) : result (list EventCall * list string) :=
  match positions with
  | [] => Ok (linked_pairings, error_messages)
  | pos :: rest =>
      let bp := at_position (break1 (ev_pair ev)) pos in
      match flanking_call ev event_type_ (Some bp) None
              ["call_method"; "break2_call_method"] (Some SPLIT) (Some FLANK) with
      | Ok call =>
          mixed_first_loop ev event_type_ rest (linked_pairings ++ [call])
            error_messages
      | Raise e =>
          if caught e then
            mixed_first_loop ev event_type_ rest linked_pairings
              (set_add (str_exn e) error_messages)
          else Raise e
      end
  end.

Fixpoint mixed_second_loop (ev : Evidence) (event_type_ : SVTYPE)
    (positions : list Z) (linked_pairings : list EventCall)
    (error_messages : list string) : result (list EventCall * list string) :=
  match positions with
  | [] => Ok (linked_pairings, error_messages)
  | pos :: rest =>
      let bp := at_position (break2 (ev_pair ev)) pos in
      match flanking_call ev event_type_ None (Some bp)
              ["call_method"; "break2_call_method"] (Some FLANK) (Some SPLIT) with
      | Ok call =>
          mixed_second_loop ev event_type_ rest (linked_pairings ++ [call])
            error_messages
      | Raise e =>
          if caught e then
            mixed_second_loop ev event_type_ rest linked_pairings
              (set_add (str_exn e) error_messages)
          else Raise e
      end
  end.

(** The stage that calls by flanking pairs only. *)
Definition flanking_only (ev : Evidence) (event_type_ : SVTYPE)
    (linked_pairings : list EventCall) (error_messages : list string)
    : result (list EventCall * list string) :=
  match flanking_call ev event_type_ None None ["call_method"] (Some FLANK) None with
  | Ok call => Ok (linked_pairings ++ [call], error_messages)
  | Raise e =>
      if caught e then Ok (linked_pairings, set_add (str_exn e) error_messages)
      else Raise e
  end.

(** The two pairing loops: the calls of the linked pairing followed by the
    calls of the pairing of the positions it left over. *)
Definition split_pairings (ev : Evidence) (event_type_ : SVTYPE)
    (pos1 pos2 : posdict) : result (list EventCall) :=
  linked_pairings <-
    linked_loop ev event_type_ pos1 pos2 (list_prod (keys pos1) (keys pos2)) [] ;;
  let f := leftover pos1 (map (fun t => start (break1 (ec_pair t))) linked_pairings) in
  let s := leftover pos2 (map (fun t => start (break2 (ec_pair t))) linked_pairings) in
  unlinked_loop ev event_type_ (list_prod f s) linked_pairings.

Definition _call_by_supporting_reads (ev : Evidence) (event_type_ : SVTYPE)
    : result (list EventCall) :=
  pos1 <- candidate_positions ev (fst (split_reads ev)) (break1 (ev_pair ev)) ;;
  pos2 <- candidate_positions ev (snd (split_reads ev)) (break2 (ev_pair ev)) ;;
  linked_pairings <- split_pairings ev event_type_ pos1 pos2 ;;
  if Z.eqb (len linked_pairings) 0 then
    r1 <- mixed_first_loop ev event_type_ (keys pos1) linked_pairings [] ;;
    r2 <- mixed_second_loop ev event_type_ (keys pos2) (fst r1) (snd r1) ;;
    r3 <- (if Z.eqb (len (fst r2)) 0
           then flanking_only ev event_type_ (fst r2) (snd r2)
           else Ok r2) ;;
    if Z.eqb (len (fst r3)) 0 then
      raise UserWarning [AStr (join ";" (set_iter (snd r3)))]
    else Ok (fst r3)
  else Ok linked_pairings.

(** *** [call_events] *)

Definition msg_insufficient_evidence : string :=
  "insufficient evidence to call events".

(** The body of [call_events], with the two resolvers it calls by name as
    arguments. *)
Definition call_events_with
    (by_contigs by_supporting_reads : Evidence -> SVTYPE -> result (list EventCall))
    (source_evidence : Evidence) (event_type_ : SVTYPE)
    : result (list EventCall) :=
  if negb (svtype_in event_type_ (putative_event_types source_evidence)) then
    raise ValueError
      [AStr "event_type is not compatible with the evidence object";
       ASvtype event_type_; ASvtypes (putative_event_types source_evidence)]
  else
    contig_calls <- by_contigs source_evidence event_type_ ;;
    let calls := [] ++ contig_calls in
    ce <- (if Z.eqb (len calls) 0 then
             match by_supporting_reads source_evidence event_type_ with
             | Ok cs => Ok (calls ++ cs, [])
             | Raise err =>
                 match kind err with
                 | UserWarning => Ok (calls, set_add (str_exn err) [])
                 | _ => Raise err
                 end
             end
           else Ok (calls, [])) ;;
    let calls := fst ce in
    let errors := snd ce in
    if Z.eqb (len calls) 0 && Z.gtb (len errors) 0 then
      raise UserWarning [AStr (join ";" (sorted (set_iter errors)))]
    else if Z.eqb (len calls) 0 then
      raise UserWarning [AStr msg_insufficient_evidence]
    else Ok calls.

Definition call_events (source_evidence : Evidence) (event_type_ : SVTYPE)
    : result (list EventCall) :=
  call_events_with _call_by_contigs _call_by_supporting_reads
    source_evidence event_type_.

End Calling.

(** ** Specification-level definitions

    What the resolvers and counters are expected to compute, written
    independently of their loops. *)
Section Specification.
Context {collab : Collaborators}.

(** The call of the split-read stages for the positions [first] and
    [second]. *)
Definition mk_split_call (ev : Evidence) (event_type_ : SVTYPE) (first second : Z)
    : EventCall :=
  let p := ev_pair ev in
  {| ec_pair :=
       {| break1 := at_position (break1 p) first;
          break2 := at_position (break2 p) second;
          stranded := stranded p && bam_cache_stranded ev;
          opposing_strands := opposing_strands p;
          untemplated_sequence := untemplated_sequence p;
          data := data p |};
     evidence := ev; event_type := event_type_; contig := None;
     call_method := (SPLIT, SPLIT); contig_alignment := None |}.

(** The ordering rule of both pairing stages. *)
Definition ordering_ok (ev : Evidence) (fs : Z * Z) : bool :=
  negb (same_chr ev && Z.geb (fst fs) (snd fs)).

(** The combinations kept by the linked pairing, in enumeration order. *)
Definition linked_positions (ev : Evidence) (pos1 pos2 : posdict) : list (Z * Z) :=
  filter (fun fs => ordering_ok ev fs
                    && negb (Z.ltb (links pos1 pos2 (fst fs) (snd fs))
                                   (min_linking_split_reads ev)))
    (list_prod (keys pos1) (keys pos2)).

(** The combinations of the candidates that no linked call uses. *)
Definition unlinked_positions (ev : Evidence) (pos1 pos2 : posdict) : list (Z * Z) :=
  let linked := linked_positions ev pos1 pos2 in
  filter (ordering_ok ev)
    (list_prod (leftover pos1 (map fst linked)) (leftover pos2 (map snd linked))).

(** The property that the unlinked pairing runs only when the linked pairing
    gave nothing: whenever the linked pairing yields calls, they are the
    whole result of the resolver. *)
Definition unlinked_only_without_linked (ev : Evidence) (event_type_ : SVTYPE)
    : Prop :=
  forall pos1 pos2 linked,
    candidate_positions ev (fst (split_reads ev)) (break1 (ev_pair ev)) = Ok pos1 ->
    candidate_positions ev (snd (split_reads ev)) (break2 (ev_pair ev)) = Ok pos2 ->
    linked_loop ev event_type_ pos1 pos2 (list_prod (keys pos1) (keys pos2)) []
      = Ok linked ->
    linked <> [] ->
    _call_by_supporting_reads ev event_type_ = Ok linked.

(** The ordering invariant of a call. *)
Definition ordered (c : EventCall) : Prop :=
  chr (break1 (ec_pair c)) = chr (break2 (ec_pair c)) ->
  start (break1 (ec_pair c)) < start (break2 (ec_pair c)).

(** A read whose breakpoint position can be computed and lies on the
    breakpoint [b]. *)
Definition exactly_at (b : Breakpoint) (read : Read) : bool :=
  match breakpoint_pos read (orient b) with
  | Ok bpos => overlaps {| i_start := bpos; i_end := bpos |} (bp_interval b)
  | Raise _ => false
  end.

(** Adding the names of a list to a set, one by one. *)
Definition add_all (names : list string) (s : list string) : list string :=
  fold_left (fun s n => set_add n s) names s.

(** The reads of one side whose candidate position is [p]. *)
Definition reads_at (reads : list Read) (o : ORIENT) (p : Z) : list Read :=
  filter (fun read =>
            match breakpoint_pos read o with
            | Ok bpos => Z.eqb (bpos + 1) p
            | Raise _ => false
            end) reads.

(** The candidate positions of the reads of one side, read by read, leaving
    out the reads without a breakpoint position. *)
Fixpoint read_positions (reads : list Read) (o : ORIENT) : list Z :=
  match reads with
  | [] => []
  | read :: rest =>
      match breakpoint_pos read o with
      | Ok bpos => (bpos + 1) :: read_positions rest o
      | Raise _ => read_positions rest o
      end
  end.

(** The distinct elements of a list, each at its first occurrence. *)
Definition see (acc : list Z) (x : Z) : list Z :=
  if Z_in x acc then acc else acc ++ [x].

Definition first_occurrences (xs : list Z) : list Z := fold_left see xs [].

(** The property that the candidates of the first side are enumerated in
    sorted order. *)
Definition enumeration_sorted (ev : Evidence) : Prop :=
  forall pos1,
    candidate_positions ev (fst (split_reads ev)) (break1 (ev_pair ev)) = Ok pos1 ->
    forall i j, (i < j)%nat -> (j < List.length (keys pos1))%nat ->
      nth i (keys pos1) 0 <= nth j (keys pos1) 0.

(** The covering intervals of the two sides, from the flanking pairs the
    event type keeps. *)
Definition flanking_covers (ev : Evidence) (event_type_ : SVTYPE)
    : result (Interval * Interval) :=
  let '(_, first_positions, second_positions) :=
    flanking_positions ev event_type_ (flanking_pairs ev) 0 [] [] in
  lo1 <- py_min first_positions ;;
  hi1 <- py_max first_positions ;;
  lo2 <- py_min second_positions ;;
  hi2 <- py_max second_positions ;;
  Ok ({| i_start := lo1; i_end := hi1 |}, {| i_start := lo2; i_end := hi2 |}).

(** The number of flanking pairs the event type keeps. *)
Definition flanking_count (ev : Evidence) (event_type_ : SVTYPE) : Z :=
  fst (fst (flanking_positions ev event_type_ (flanking_pairs ev) 0 [] [])).

(** The room left for a breakpoint beside a covering interval. *)
Definition breakpoint_width (ev : Evidence) (cover : Interval) : Z :=
  max_expected_fragment_size ev - interval_len cover - read_length ev * 2.

(** The pairs of call methods of the mixed stage. *)
Definition mixed_methods (m : CALL_METHOD * CALL_METHOD) : Prop :=
  m = (SPLIT, FLANK) \/ m = (FLANK, SPLIT).

(** Two breakpoints on the same chromosome with the same orientation and
    strand. *)
Definition same_locus (b b0 : Breakpoint) : Prop :=
  chr b = chr b0 /\ orient b = orient b0 /\ strand b = strand b0.

(** What every call of the split-read resolver carries: the request and its
    evidence, no contig, breakpoints at the loci of the evidence, and on a
    side called by split reads the point at one of that side's candidates. *)
Definition resolved_from (ev : Evidence) (event_type_ : SVTYPE)
    (pos1 pos2 : posdict) (c : EventCall) : Prop :=
  event_type c = event_type_ /\ evidence c = ev /\ contig c = None
  /\ svtype_in event_type_ (classify (ev_pair ev)) = true
  /\ opposing_strands (ec_pair c) = opposing_strands (ev_pair ev)
  /\ same_locus (break1 (ec_pair c)) (break1 (ev_pair ev))
  /\ same_locus (break2 (ec_pair c)) (break2 (ev_pair ev))
  /\ start (break1 (ec_pair c)) <= end_ (break1 (ec_pair c))
  /\ start (break2 (ec_pair c)) <= end_ (break2 (ec_pair c))
  /\ (fst (call_method c) = SPLIT ->
      exists pos, In pos (keys pos1)
                  /\ break1 (ec_pair c) = at_position (break1 (ev_pair ev)) pos)
  /\ (snd (call_method c) = SPLIT ->
      exists pos, In pos (keys pos2)
                  /\ break2 (ec_pair c) = at_position (break2 (ev_pair ev)) pos).



End Specification.

(** The same collaborators with another iteration order of sets. *)
Definition with_set_iter (c : Collaborators) (f : list string -> list string)
    : Collaborators := {|
  breakpoint_pos := @breakpoint_pos c;
  classify := @classify c;
  call_breakpoint_pair := @call_breakpoint_pair c;
  putative_event_types := @putative_event_types c;
  compute_fragment_size := @compute_fragment_size c;
  repr_interval := @repr_interval c;
  repr_breakpoint := @repr_breakpoint c;
  set_iter := f
|}.

(** ** Sample collaborators and evidence

    One concrete choice of the collaborators, and the evidence objects at
    which the behaviour of the module is evaluated below. *)
Module Sample.

Definition repr_Z (z : Z) : string := NilZero.string_of_int (Z.to_int z).

(** The position of the last aligned base for [LEFT], of the first one
    otherwise; a read with an empty name stands for one without the
    soft-clipping the computation needs. *)
Definition sample_breakpoint_pos (read : Read) (o : ORIENT) : result Z :=
  if String.eqb (query_name read) "" then
    raise AttributeError [AStr "cannot compute breakpoint position"]
  else
    match o with
    | LEFT => Ok (reference_end read - 1)
    | _ => Ok (reference_start read)
    end.

Definition sample_classify (p : BreakpointPair) : list SVTYPE :=
  if interchromosomal p then
    if opposing_strands p then [ITRANS] else [TRANS]
  else if opposing_strands p then [INV]
  else
    match orient (break1 p), orient (break2 p) with
    | LEFT, RIGHT => [DEL; INS]
    | RIGHT, LEFT => [DUP]
    | _, _ => [DEL; INS; DUP]
    end.

Definition point (c : string) (pos : Z) (o : ORIENT) : Breakpoint :=
  {| chr := c; start := pos; end_ := pos; orient := o; strand := STRAND_NS |}.

(** A contig aligned in two pieces: the first piece ends at the first
    breakpoint, the second starts at the second one. *)
Definition sample_call_breakpoint_pair (read1 : Read) (read2 : option Read)
    : result BreakpointPair :=
  match read2 with
  | None => raise UserWarning [AStr "single alignment without an event"]
  | Some r2 =>
      Ok {| break1 := point "chr1" (reference_end read1) LEFT;
            break2 := point "chr1" (reference_start r2 + 1) RIGHT;
            stranded := false; opposing_strands := false;
            untemplated_sequence := Some ""; data := [] |}
  end.

Definition sample_repr_interval (i : Interval) : string :=
  ("Interval(" ++ repr_Z (i_start i) ++ ", " ++ repr_Z (i_end i) ++ ")")%string.

Definition sample_repr_breakpoint (b : Breakpoint) : string :=
  ("Breakpoint(" ++ chr b ++ ":" ++ repr_Z (start b) ++ "-" ++ repr_Z (end_ b) ++ ")")%string.

(** Sets iterated in insertion order. *)
#[export] Instance collab : Collaborators := {|
  breakpoint_pos := sample_breakpoint_pos;
  classify := sample_classify;
  call_breakpoint_pair := sample_call_breakpoint_pair;
  putative_event_types := fun ev => sample_classify (ev_pair ev);
  compute_fragment_size := fun _ read _ =>
    {| i_start := Z.abs (template_length read);
       i_end := Z.abs (template_length read) |};
  repr_interval := sample_repr_interval;
  repr_breakpoint := sample_repr_breakpoint;
  set_iter := fun s => s
|}.

(** A read named [name], aligned to [s+1..e] (its start is 0-based). *)
Definition read_at (name : string) (s e tlen : Z) : Read :=
  {| query_name := name; template_length := tlen; reference_start := s;
     reference_end := e; next_reference_start := 0; targeted_alignment := None |}.

Definition region (c : string) (s e : Z) (o : ORIENT) : Breakpoint :=
  {| chr := c; start := s; end_ := e; orient := o; strand := STRAND_NS |}.

Definition pair_of (b1 b2 : Breakpoint) : BreakpointPair :=
  {| break1 := b1; break2 := b2; stranded := false; opposing_strands := false;
     untemplated_sequence := None; data := [] |}.

Definition evidence_of (p : BreakpointPair) (splits1 splits2 : list Read)
    (flanking : list (Read * Read)) (ctgs : list Contig)
    (min_flanking min_splits min_linking : Z) : Evidence :=
  {| ev_pair := p; bam_cache_stranded := false;
     split_reads := (splits1, splits2); flanking_pairs := flanking;
     contigs := ctgs; read_length := 50;
     min_expected_fragment_size := 100; max_expected_fragment_size := 500;
     min_flanking_pairs_resolution := min_flanking;
     min_splits_reads_resolution := min_splits;
     min_non_target_aligned_split_reads := 1;
     min_linking_split_reads := min_linking |}.

Definition del_region : BreakpointPair :=
  pair_of (region "chr1" 50 150 LEFT) (region "chr1" 450 550 RIGHT).

Definition names6 : list string := ["r1"; "r2"; "r3"; "r4"; "r5"; "r6"].

(** Scenario A: one contig with one alignment pair, whose pieces end at
    position 100 and start at position 500. *)
Definition contig_A : Contig :=
  {| ctg_seq := "ACGTACGT";
     alignments := [(read_at "ctg" 0 100 0, Some (read_at "ctg" 499 600 0))];
     remap_score := 10 |}.

Definition evidence_A : Evidence :=
  evidence_of del_region [] [] [] [contig_A] 10 5 1.

(** Scenario B: six reads whose candidate position is 100 on the first
    side, six at 500 on the second side, with the same six names. *)
Definition evidence_B : Evidence :=
  evidence_of del_region
    (map (fun n => read_at n 40 100 0) names6)
    (map (fun n => read_at n 499 560 0) names6)
    [] [] 10 5 1.

(** Two candidates per side, of which only the first of each side share a
    read name. *)
Definition evidence_C : Evidence :=
  evidence_of del_region
    [read_at "x" 40 100 0; read_at "y" 140 200 0]
    [read_at "x" 499 560 0; read_at "z" 599 660 0]
    [] [] 10 1 1.

(** Candidates met in descending order on the first side. *)
Definition evidence_D : Evidence :=
  evidence_of del_region
    [read_at "a" 240 300 0; read_at "b" 40 100 0]
    [read_at "a" 499 560 0; read_at "b" 499 560 0]
    [] [] 10 1 1.

(** A read of a flanking pair, with the start of its mate. *)
Definition flank_read (name : string) (s e next tlen : Z) : Read :=
  {| query_name := name; template_length := tlen; reference_start := s;
     reference_end := e; next_reference_start := next; targeted_alignment := None |}.

Definition dup_region : BreakpointPair :=
  pair_of (region "chr1" 50 150 RIGHT) (region "chr1" 450 550 LEFT).

(** A split-read candidate for the first side at 900, beyond the flanking
    coverage 400..450 of the second side. *)
Definition evidence_E : Evidence :=
  evidence_of dup_region
    [read_at "s" 899 960 0]
    []
    [(flank_read "f" 99 150 399 700, flank_read "f" 399 450 99 (-700))]
    [] 1 1 1.

(** Two split-read candidates for the second side, and flanking pairs
    whose first-side coverage 1000..1100 lies after the second-side
    coverage 400..500. *)
Definition evidence_F : Evidence :=
  evidence_of del_region
    []
    [read_at "p" 899 960 0; read_at "q" 799 860 0]
    [(flank_read "f" 999 1100 399 700, flank_read "f" 399 500 999 (-700))]
    [] 1 1 1.

(** Scenario B with one flanking pair added. *)
Definition evidence_G : Evidence :=
  evidence_of del_region
    (map (fun n => read_at n 40 100 0) names6)
    (map (fun n => read_at n 499 560 0) names6)
    [(flank_read "f" 9 60 599 700, flank_read "f" 599 650 9 (-700))]
    [] 10 5 1.

(** A call on [ev] resolved to the points [p1] and [p2]. *)
Definition call_at (ev : Evidence) (et : SVTYPE) (p1 p2 : Z) : EventCall :=
  {| ec_pair :=
       pair_of (at_position (break1 (ev_pair ev)) p1)
               (at_position (break2 (ev_pair ev)) p2);
     evidence := ev; event_type := et; contig := None;
     call_method := (SPLIT, SPLIT); contig_alignment := None |}.

(** The candidate positions of [evidence_C] and of [evidence_D]. *)
Definition positions_C1 : posdict :=
  [(100, [read_at "x" 40 100 0]); (200, [read_at "y" 140 200 0])].
Definition positions_C2 : posdict :=
  [(500, [read_at "x" 499 560 0]); (600, [read_at "z" 599 660 0])].
Definition positions_D1 : posdict :=
  [(300, [read_at "a" 240 300 0]); (100, [read_at "b" 40 100 0])].

(** The message of the failure to bound the first side of [evidence_F]
    against the breakpoint [other] of the second side. *)
Definition incompatible_F (other : option Breakpoint) : string :=
  str_exn (Exn AssertionError
             [AStr msg_incompatible; AInterval {| i_start := 1000; i_end := 1100 |};
              ABreakpoint other]).

Definition messages_F : list string :=
  [incompatible_F (Some (point "chr1" 900 RIGHT));
   incompatible_F (Some (point "chr1" 800 RIGHT));
   incompatible_F None].

(** Flanking pairs only: the first read covers 100..150, its mate
    400..450. *)
Definition evidence_H : Evidence :=
  evidence_of del_region [] []
    [(flank_read "f" 99 150 399 700, flank_read "f" 399 450 99 (-700))]
    [] 1 1 1.

(** No evidence at all, and a threshold of zero flanking pairs. *)
Definition evidence_I : Evidence :=
  evidence_of del_region [] [] [] [] 0 1 1.

(** Flanking pairs whose two sides cover 100..300 and 250..450. *)
Definition evidence_J : Evidence :=
  evidence_of del_region [] []
    [(flank_read "f" 99 300 249 700, flank_read "f" 249 450 99 (-700))]
    [] 1 1 1.

(** Scenario B with one more read on each side, named [off], whose
    candidate positions are 101 and 501. *)
Definition evidence_K : Evidence :=
  evidence_of del_region
    (map (fun n => read_at n 40 100 0) names6 ++ [read_at "off" 41 101 0])
    (map (fun n => read_at n 499 560 0) names6 ++ [read_at "off" 500 561 0])
    [] [] 10 5 1.


End Sample.

(** * Properties *)

Lemma SVTYPE_eqb_spec (a b : SVTYPE) : reflect (a = b) (SVTYPE_eqb a b).
Proof. destruct a, b; simpl; constructor; congruence. Qed.

Lemma SVTYPE_eqb_refl (a : SVTYPE) : SVTYPE_eqb a a = true.
Proof. now destruct a. Qed.

(** ** The contig-based resolver *)
Section ContigResolver.
Context {collab : Collaborators}.

(** The keywords of the constructor call of [_call_by_contigs] do not fit
    the signature of [EventCall.__init__]. *)
Lemma contig_call_does_not_bind :
  bind_arguments "__init__" EventCall_params 5 4
    ["contig"; "alignment"; "opposing_strands"; "untemplated_sequence"]
  = raise TypeError
      [AStr "__init__() got an unexpected keyword argument 'alignment'"].
Proof. reflexivity. Qed.

(** Whatever the alignments, the loop over them adds no event to the ones
    it starts with. *)
Lemma contig_alignments_loop_adds_nothing ev et ctg als events events' :
  contig_alignments_loop ev et ctg als events = Ok events' -> events' = events.
Proof.
  revert events. induction als as [|[read1 read2] rest IH]; intros events H.
  - simpl in H. congruence.
  - simpl in H.
    destruct (call_breakpoint_pair read1 read2) as [bpp|e].
    + match type of H with
      | (if ?c then _ else _) = _ => destruct c
      end.
      * now apply IH.
      * discriminate H.
    + destruct (kind e); try discriminate H. now apply IH.
Qed.

(** The resolver never returns a call: it returns the empty list or raises. *)
Lemma _call_by_contigs_returns_no_call ev et events :
  _call_by_contigs ev et = Ok events -> events = [].
Proof.
  unfold _call_by_contigs. generalize (@nil EventCall) as acc.
  induction (contigs ev) as [|ctg rest IH]; intros acc H.
  - simpl in H. congruence.
  - simpl in H.
    destruct (contig_alignments_loop ev et ctg (alignments ctg) acc) as [acc'|e] eqn:E;
      simpl in H; [|discriminate H].
    apply contig_alignments_loop_adds_nothing in E. subst acc'.
    now apply IH.
Qed.

(** An accepted candidate makes the loop raise [TypeError]. *)
Lemma accepted_candidate_raises ev et ctg read1 read2 rest events bpp :
  call_breakpoint_pair read1 read2 = Ok bpp ->
  opposing_strands bpp = opposing_strands (ev_pair ev) ->
  (et = INS -> untemplated_sequence bpp <> Some "") ->
  svtype_in et (classify bpp) = true ->
  contig_alignments_loop ev et ctg ((read1, read2) :: rest) events
  = raise TypeError
      [AStr "__init__() got an unexpected keyword argument 'alignment'"].
Proof.
  intros Hb Ho Hu Hc. simpl. rewrite Hb, Ho, Hc, Bool.eqb_reflx. simpl.
  assert (Hins : SVTYPE_eqb et INS && opt_str_is_empty (untemplated_sequence bpp) = false).
  { destruct (SVTYPE_eqb_spec et INS) as [->|]; [|reflexivity].
    simpl. destruct (untemplated_sequence bpp) as [u|]; [|reflexivity].
    simpl. destruct (String.eqb_spec u ""); [subst; now elim Hu|reflexivity]. }
  rewrite Hins. reflexivity.
Qed.

End ContigResolver.

(** ** The selector *)
Section Selector.
Context {collab : Collaborators}.

(** C2.  Whenever the contig-based resolver yields at least one call for a
    request the selector accepts, [call_events] returns exactly those
    calls, whatever the split-read resolver (and the flanking bounding it
    drives) would do: the result is the same for every behaviour of that
    resolver, also one that raises, so it is not run. *)
Theorem C2_contig_calls_are_the_result
    (by_contigs by_supporting_reads : Evidence -> SVTYPE -> result (list EventCall))
    (ev : Evidence) (et : SVTYPE) (cs : list EventCall) :
  svtype_in et (putative_event_types ev) = true ->
  by_contigs ev et = Ok cs ->
  cs <> [] ->
  call_events_with by_contigs by_supporting_reads ev et = Ok cs.
Proof.
  intros Hin Hc Hne. unfold call_events_with. rewrite Hin, Hc. simpl.
  destruct cs as [|c cs']; [now elim Hne|].
  unfold len. simpl List.length. rewrite Nat2Z.inj_succ.
  destruct (Z.eqb_spec (Z.succ (Z.of_nat (List.length cs'))) 0) as [E|_]; [lia|].
  reflexivity.
Qed.

(** A request for a type the evidence does not allow is refused at once. *)
Lemma call_events_incompatible_request by_contigs by_supporting_reads ev et :
  svtype_in et (putative_event_types ev) = false ->
  call_events_with by_contigs by_supporting_reads ev et
  = raise ValueError
      [AStr "event_type is not compatible with the evidence object";
       ASvtype et; ASvtypes (putative_event_types ev)].
Proof. intros H. unfold call_events_with. now rewrite H. Qed.

(** Without contig calls, a [UserWarning] of the split-read resolver is
    what the caller sees, through the selector's own sorted set. *)
Lemma call_events_relays_warning by_contigs by_supporting_reads ev et a :
  svtype_in et (putative_event_types ev) = true ->
  by_contigs ev et = Ok [] ->
  by_supporting_reads ev et = Raise (Exn UserWarning a) ->
  call_events_with by_contigs by_supporting_reads ev et
  = raise UserWarning
      [AStr (join ";" (sorted (set_iter [str_exn (Exn UserWarning a)])))].
Proof.
  intros Hin Hc Hr. unfold call_events_with. rewrite Hin, Hc. simpl.
  rewrite Hr. reflexivity.
Qed.

(** Without calls and without a captured message, the failure is the
    generic one. *)
Lemma call_events_generic_failure by_contigs by_supporting_reads ev et :
  svtype_in et (putative_event_types ev) = true ->
  by_contigs ev et = Ok [] ->
  by_supporting_reads ev et = Ok [] ->
  call_events_with by_contigs by_supporting_reads ev et
  = raise UserWarning [AStr msg_insufficient_evidence].
Proof.
  intros Hin Hc Hr. unfold call_events_with. rewrite Hin, Hc. simpl.
  rewrite Hr. reflexivity.
Qed.

(** The split-read resolver itself never returns an empty list. *)
Lemma _call_by_supporting_reads_not_empty ev et l :
  _call_by_supporting_reads ev et = Ok l -> l <> [].
Proof.
  unfold _call_by_supporting_reads. intros H.
  destruct (candidate_positions ev (fst (split_reads ev)) (break1 (ev_pair ev)))
    as [pos1|]; simpl in H; [|discriminate].
  destruct (candidate_positions ev (snd (split_reads ev)) (break2 (ev_pair ev)))
    as [pos2|]; simpl in H; [|discriminate].
  destruct (split_pairings ev et pos1 pos2) as [lp|]; simpl in H; [|discriminate].
  destruct (Z.eqb_spec (len lp) 0) as [E|NE].
  - destruct (mixed_first_loop ev et (keys pos1) lp []) as [r1|]; simpl in H;
      [|discriminate].
    destruct (mixed_second_loop ev et (keys pos2) (fst r1) (snd r1)) as [r2|];
      simpl in H; [|discriminate].
    match type of H with
    | bind ?r _ = _ => destruct r as [r3|]
    end; simpl in H; [|discriminate].
    destruct (Z.eqb_spec (len (fst r3)) 0) as [E3|NE3]; [discriminate|].
    injection H as <-. intros E'. rewrite E' in NE3. now apply NE3.
  - injection H as <-. intros ->. now apply NE.
Qed.

End Selector.

(** ** Hashing and equality *)

(** C10.  Hashing an [EventCall] raises; but [__eq__] drops the answer of
    the identity comparison it makes and returns [None], so that an
    [EventCall] does not compare equal to itself. *)
Theorem C10_eq_returns_None_for_self (self : Object EventCall) :
  EventCall___hash__ self
    = raise NotImplementedError [AStr "this object type does not support hashing"]
  /\ object___eq__ self self = PyTrue
  /\ EventCall___eq__ self self = PyNone
  /\ EventCall_equals self self = false.
Proof.
  repeat split.
  unfold object___eq__. now rewrite Nat.eqb_refl.
Qed.

(** ** The flanking support counter *)
Section FlankingSupport.
Context {collab : Collaborators}.

(** On evidence without flanking pairs the counter returns (0, 0, 0). *)
Lemma count_flanking_support_no_pairs (self : EventCall) :
  flanking_pairs (evidence self) = [] ->
  count_flanking_support self = Ok (0, PInt 0, PInt 0).
Proof. intros H. unfold count_flanking_support. now rewrite H. Qed.

(** For a deletion or an insertion, the first read met makes the counter
    raise [NameError]. *)
Lemma count_flanking_support_unbound_name (self : EventCall) :
  event_type self = DEL \/ event_type self = INS ->
  flanking_pairs (evidence self) <> [] ->
  count_flanking_support self
  = raise NameError [AStr "name 'exp_isize_range' is not defined"].
Proof.
  intros Ht Hne. unfold count_flanking_support.
  destruct (flanking_pairs (evidence self)) as [|[read mate] rest]; [now elim Hne|].
  destruct Ht as [-> | ->]; reflexivity.
Qed.

End FlankingSupport.

(** ** The two pairing stages of the split-read resolver *)
Section SplitPairing.
Context {collab : Collaborators}.

Lemma split_call_binds :
  bind_arguments "__init__" EventCall_params 5 4 ["call_method"] = Ok tt.
Proof. reflexivity. Qed.

(** Where the requested type is one of the evidence's own classes, the
    call of a pair of positions is built without failure. *)
Lemma split_call_ok ev et first second :
  svtype_in et (classify (ev_pair ev)) = true ->
  split_call ev et first second = Ok (mk_split_call ev et first second).
Proof.
  intros Hc. unfold split_call, new_Breakpoint. rewrite !Z.ltb_irrefl. simpl.
  unfold new_EventCall. rewrite split_call_binds. simpl.
  unfold EventCall___init__, BreakpointPair___init__. simpl. rewrite Hc. simpl.
  reflexivity.
Qed.

Lemma linked_loop_spec ev et pos1 pos2 pairs acc :
  svtype_in et (classify (ev_pair ev)) = true ->
  linked_loop ev et pos1 pos2 pairs acc
  = Ok (acc ++ map (fun fs => mk_split_call ev et (fst fs) (snd fs))
                (filter (fun fs => ordering_ok ev fs
                                   && negb (Z.ltb (links pos1 pos2 (fst fs) (snd fs))
                                                  (min_linking_split_reads ev)))
                        pairs)).
Proof.
  intros Hc. revert acc.
  induction pairs as [|[first second] rest IH]; intros acc; simpl.
  - now rewrite app_nil_r.
  - unfold ordering_ok at 1. simpl.
    destruct (same_chr ev && (first >=? second)); simpl; [apply IH|].
    destruct (links pos1 pos2 first second <? min_linking_split_reads ev); simpl;
      [apply IH|].
    rewrite (split_call_ok _ _ _ _ Hc). simpl. rewrite IH, <- app_assoc.
    reflexivity.
Qed.

Lemma unlinked_loop_spec ev et pairs acc :
  svtype_in et (classify (ev_pair ev)) = true ->
  unlinked_loop ev et pairs acc
  = Ok (acc ++ map (fun fs => mk_split_call ev et (fst fs) (snd fs))
                (filter (ordering_ok ev) pairs)).
Proof.
  intros Hc. revert acc.
  induction pairs as [|[first second] rest IH]; intros acc; simpl.
  - now rewrite app_nil_r.
  - unfold ordering_ok at 1. simpl.
    destruct (same_chr ev && (first >=? second)); simpl; [apply IH|].
    rewrite (split_call_ok _ _ _ _ Hc). simpl. rewrite IH, <- app_assoc.
    reflexivity.
Qed.

Lemma starts_of_split_calls ev et (l : list (Z * Z)) :
  map (fun t => start (break1 (ec_pair t)))
      (map (fun fs => mk_split_call ev et (fst fs) (snd fs)) l) = map fst l
  /\ map (fun t => start (break2 (ec_pair t)))
         (map (fun fs => mk_split_call ev et (fst fs) (snd fs)) l) = map snd l.
Proof. split; rewrite map_map; apply map_ext; reflexivity. Qed.

(** The two pairing loops together: the linked combinations, then the
    combinations of the candidates they left over. *)
Lemma split_pairings_spec ev et pos1 pos2 :
  svtype_in et (classify (ev_pair ev)) = true ->
  split_pairings ev et pos1 pos2
  = Ok (map (fun fs => mk_split_call ev et (fst fs) (snd fs))
          (linked_positions ev pos1 pos2 ++ unlinked_positions ev pos1 pos2)).
Proof.
  intros Hc. unfold split_pairings. rewrite (linked_loop_spec _ _ _ _ _ _ Hc).
  simpl. fold (linked_positions ev pos1 pos2).
  destruct (starts_of_split_calls ev et (linked_positions ev pos1 pos2)) as [E1 E2].
  rewrite E1, E2, (unlinked_loop_spec _ _ _ _ Hc), map_app.
  reflexivity.
Qed.

(** C3, as the code has it.  The pairing of the leftover candidates is not
    conditional on the linked pairing: whenever the two stages give a call
    at all, the resolver returns the calls of the linked combinations
    followed by one call for every combination, in the ordering rule, of a
    first-side candidate and a second-side candidate that no linked call
    uses. *)
Theorem C3_linked_calls_then_leftover_calls ev et pos1 pos2 :
  svtype_in et (classify (ev_pair ev)) = true ->
  candidate_positions ev (fst (split_reads ev)) (break1 (ev_pair ev)) = Ok pos1 ->
  candidate_positions ev (snd (split_reads ev)) (break2 (ev_pair ev)) = Ok pos2 ->
  linked_positions ev pos1 pos2 ++ unlinked_positions ev pos1 pos2 <> [] ->
  _call_by_supporting_reads ev et
  = Ok (map (fun fs => mk_split_call ev et (fst fs) (snd fs))
          (linked_positions ev pos1 pos2 ++ unlinked_positions ev pos1 pos2)).
Proof.
  intros Hc H1 H2 Hne. unfold _call_by_supporting_reads.
  rewrite H1, H2. simpl. rewrite (split_pairings_spec _ _ _ _ Hc). simpl.
  destruct (linked_positions ev pos1 pos2 ++ unlinked_positions ev pos1 pos2)
    as [|fs rest]; [now elim Hne|].
  reflexivity.
Qed.

(** Every call of the two pairing stages satisfies the ordering invariant. *)
Lemma split_pairings_ordered ev et pos1 pos2 calls c :
  svtype_in et (classify (ev_pair ev)) = true ->
  split_pairings ev et pos1 pos2 = Ok calls ->
  In c calls -> ordered c.
Proof.
  intros Hc H Hin. rewrite (split_pairings_spec _ _ _ _ Hc) in H.
  injection H as <-. apply in_map_iff in Hin as [[first second] [<- Hin]].
  assert (Hord : ordering_ok ev (first, second) = true).
  { apply in_app_or in Hin as [Hin|Hin]; apply filter_In in Hin as [_ Hin].
    - now apply andb_true_iff in Hin as [Hin _].
    - exact Hin. }
  unfold ordered, ordering_ok, same_chr in *. simpl in *. intros Hchr.
  rewrite Hchr, String.eqb_refl in Hord. simpl in Hord.
  apply negb_true_iff in Hord. lia.
Qed.

End SplitPairing.

(** ** The order of the candidate positions *)
Section CandidateOrder.
Context {collab : Collaborators}.

Lemma keys_dict_append pos read d :
  keys (dict_append pos read d)
  = if Z_in pos (keys d) then keys d else keys d ++ [pos].
Proof.
  induction d as [|[k rs] r IH]; simpl; [reflexivity|].
  rewrite (Z.eqb_sym pos k). destruct (Z.eqb k pos); simpl; [reflexivity|].
  fold (keys (dict_append pos read r)). fold (keys r). rewrite IH.
  unfold Z_in. now destruct (existsb (Z.eqb pos) (keys r)).
Qed.

Lemma lookup_dict_append p pos read d :
  lookup p (dict_append pos read d)
  = if Z.eqb pos p then lookup p d ++ [read] else lookup p d.
Proof.
  unfold lookup. induction d as [|[k rs] r IH]; simpl.
  - rewrite Z.eqb_sym. now destruct (Z.eqb p pos).
  - destruct (Z.eqb_spec k pos) as [->|Hk]; simpl.
    + now destruct (Z.eqb pos p).
    + destruct (Z.eqb_spec k p) as [->|Hp].
      * destruct (Z.eqb_spec pos p); [congruence|reflexivity].
      * exact IH.
Qed.

Lemma Z_in_spec x l : reflect (In x l) (Z_in x l).
Proof.
  unfold Z_in. destruct (existsb (Z.eqb x) l) eqn:E; constructor.
  - apply existsb_exists in E as [y [Hy E]]. apply Z.eqb_eq in E. now subst.
  - intros Hin. apply not_true_iff_false in E. apply E, existsb_exists.
    exists x. split; [exact Hin|apply Z.eqb_refl].
Qed.

Lemma see_NoDup acc x : NoDup acc -> NoDup (see acc x).
Proof.
  intros H. unfold see. destruct (Z_in_spec x acc) as [|Hn]; [exact H|].
  apply NoDup_app; [exact H|repeat constructor; intros []|].
  intros y Hy [<-|[]]. now apply Hn.
Qed.

Lemma fold_see_NoDup xs acc : NoDup acc -> NoDup (fold_left see xs acc).
Proof.
  revert acc. induction xs as [|x xs IH]; intros acc H; simpl; [exact H|].
  apply IH, see_NoDup, H.
Qed.

Lemma collect_positions_keys reads o d d' :
  collect_positions reads o d = Ok d' ->
  keys d' = fold_left see (read_positions reads o) (keys d).
Proof.
  revert d. induction reads as [|read rest IH]; intros d H; simpl in *.
  - congruence.
  - destruct (breakpoint_pos read o) as [bpos|e].
    + simpl. rewrite (IH _ H), keys_dict_append. reflexivity.
    + destruct (kind e); try discriminate H. now apply IH.
Qed.

Lemma collect_positions_lookup reads o d d' p :
  collect_positions reads o d = Ok d' ->
  lookup p d' = lookup p d ++ reads_at reads o p.
Proof.
  revert d. induction reads as [|read rest IH]; intros d H; simpl in *.
  - injection H as <-. now rewrite app_nil_r.
  - unfold reads_at in *. simpl.
    destruct (breakpoint_pos read o) as [bpos|e].
    + rewrite (IH _ H), lookup_dict_append.
      destruct (Z.eqb (bpos + 1) p); [now rewrite <- app_assoc|reflexivity].
    + destruct (kind e); try discriminate H. now apply IH.
Qed.

Lemma lookup_not_head p k rs r :
  p <> k -> lookup p ((k, rs) :: r) = lookup p r.
Proof.
  intros H. unfold lookup. simpl.
  destruct (Z.eqb_spec k p); [congruence|reflexivity].
Qed.

Lemma keys_filter_values (f : list Read -> bool) d :
  NoDup (keys d) ->
  keys (filter (fun kv => f (snd kv)) d)
  = filter (fun p => f (lookup p d)) (keys d).
Proof.
  induction d as [|[k rs] r IH]; intros Hnd; [reflexivity|].
  simpl in Hnd. inversion Hnd as [|? ? Hk Hr]; subst.
  cbn [filter keys map fst snd].
  assert (Hhead : lookup k ((k, rs) :: r) = rs).
  { unfold lookup. simpl. now rewrite Z.eqb_refl. }
  assert (Htail : filter (fun p => f (lookup p ((k, rs) :: r))) (map fst r)
                  = filter (fun p => f (lookup p r)) (map fst r)).
  { apply filter_ext_in. intros p Hp. rewrite lookup_not_head; [reflexivity|].
    intros ->. now apply Hk. }
  rewrite Hhead, Htail. unfold keys in IH. rewrite <- (IH Hr).
  now destruct (f rs).
Qed.

(** The candidates of one side are enumerated in the order in which their
    positions are first met among the reads of that side; a position stays
    when the reads at it pass the two thresholds. *)
Lemma candidate_positions_order ev reads b pos :
  candidate_positions ev reads b = Ok pos ->
  keys pos
  = filter (fun p => position_kept ev (reads_at reads (orient b) p))
      (first_occurrences (read_positions reads (orient b))).
Proof.
  unfold candidate_positions. intros H.
  destruct (collect_positions reads (orient b) []) as [d|] eqn:E; simpl in H;
    [|discriminate].
  injection H as <-. unfold prune_positions.
  pose proof (collect_positions_keys _ _ _ _ E) as Hk. simpl in Hk.
  rewrite keys_filter_values.
  - rewrite Hk. apply filter_ext. intros p.
    now rewrite (collect_positions_lookup _ _ _ _ p E).
  - rewrite Hk. apply fold_see_NoDup. constructor.
Qed.

End CandidateOrder.

(** ** The split-read support counter *)
Section SplitSupport.
Context {collab : Collaborators}.

Lemma str_in_spec x l : reflect (In x l) (str_in x l).
Proof.
  unfold str_in. destruct (existsb (String.eqb x) l) eqn:E; constructor.
  - apply existsb_exists in E as [y [Hy E]]. apply String.eqb_eq in E. now subst.
  - intros Hin. apply not_true_iff_false in E. apply E, existsb_exists.
    exists x. split; [exact Hin|apply String.eqb_refl].
Qed.

Lemma set_add_NoDup x s : NoDup s -> NoDup (set_add x s).
Proof.
  intros H. unfold set_add. destruct (str_in_spec x s) as [|Hn]; [exact H|].
  apply NoDup_app; [exact H|repeat constructor; intros []|].
  intros y Hy [<-|[]]. now apply Hn.
Qed.

Lemma set_add_In x s y : In y (set_add x s) <-> y = x \/ In y s.
Proof.
  unfold set_add. destruct (str_in_spec x s) as [Hi|Hn].
  - split; [now right|]. intros [->|H]; assumption.
  - rewrite in_app_iff. simpl. split.
    + intros [H|[H|[]]]; [now right|now left].
    + intros [H|H]; [right; now left|now left].
Qed.

Lemma add_all_NoDup names s : NoDup s -> NoDup (add_all names s).
Proof.
  revert s. induction names as [|n names IH]; intros s H; simpl; [exact H|].
  apply IH, set_add_NoDup, H.
Qed.

Lemma add_all_In names s y : In y (add_all names s) <-> In y s \/ In y names.
Proof.
  revert s. induction names as [|n names IH]; intros s; simpl.
  - tauto.
  - unfold add_all in IH. rewrite IH, set_add_In. intuition congruence.
Qed.

(** The loop keeps the names of the reads that lie exactly on the
    breakpoint, and among them those of the targeted re-alignments. *)
Lemma split_support_loop_spec reads b support realigns :
  (forall read e,
      In read reads -> breakpoint_pos read (orient b) = Raise e ->
      kind e = AttributeError) ->
  split_support_loop reads b support realigns
  = Ok (add_all (map query_name (filter (exactly_at b) reads)) support,
        add_all (map query_name
                   (filter (fun r => exactly_at b r && is_targeted r) reads))
                realigns).
Proof.
  revert support realigns.
  induction reads as [|read rest IH]; intros support realigns Herr;
    [reflexivity|].
  assert (Hrest : forall r e, In r rest -> breakpoint_pos r (orient b) = Raise e ->
                              kind e = AttributeError).
  { intros r e Hr. apply Herr. now right. }
  destruct (breakpoint_pos read (orient b)) as [bpos|e] eqn:E.
  - assert (Hx : exactly_at b read
                 = overlaps {| i_start := bpos; i_end := bpos |} (bp_interval b))
      by (unfold exactly_at; now rewrite E).
    cbn [split_support_loop filter]. rewrite E, Hx.
    destruct (overlaps {| i_start := bpos; i_end := bpos |} (bp_interval b));
      rewrite (IH _ _ Hrest); simpl; [|reflexivity].
    now destruct (is_targeted read).
  - assert (Hx : exactly_at b read = false) by (unfold exactly_at; now rewrite E).
    cbn [split_support_loop filter]. rewrite E, Hx.
    rewrite (Herr read e (or_introl eq_refl) E). simpl. now apply IH.
Qed.

Lemma names_of_filter (f : Read -> bool) reads n :
  In n (map query_name (filter f reads))
  <-> exists read, In read reads /\ query_name read = n /\ f read = true.
Proof.
  rewrite in_map_iff. split.
  - intros [read [Hn Hin]]. apply filter_In in Hin as [Hin Hf].
    exists read. auto.
  - intros [read [Hin [Hn Hf]]]. exists read. split; [exact Hn|].
    apply filter_In. auto.
Qed.

(** A read that gave the resolver the candidate position [p] has its
    breakpoint position at [p - 1], off the point breakpoint at [p]. *)
Lemma candidate_read_not_on_its_call read (b : Breakpoint) bpos :
  breakpoint_pos read (orient b) = Ok bpos ->
  exactly_at (at_position b (bpos + 1)) read = false.
Proof.
  intros H. unfold exactly_at. simpl. rewrite H. unfold overlaps. simpl.
  destruct (Z.ltb_spec bpos (bpos + 1)); [reflexivity|lia].
Qed.

End SplitSupport.

(** ** Independence from the iteration order of sets *)
Section SetOrder.
Context {collab : Collaborators}.
Variable f : list string -> list string.

(** The split-read resolver under two iteration orders: the same calls, or
    failures of the same kind. *)
Lemma supporting_reads_set_order ev et :
  match @_call_by_supporting_reads collab ev et,
        @_call_by_supporting_reads (with_set_iter collab f) ev et with
  | Ok a, Ok b => a = b
  | Raise e1, Raise e2 => kind e1 = kind e2
  | _, _ => False
  end.
Proof.
  unfold _call_by_supporting_reads.
  change (@candidate_positions (with_set_iter collab f))
    with (@candidate_positions collab).
  change (@split_pairings (with_set_iter collab f)) with (@split_pairings collab).
  change (@mixed_first_loop (with_set_iter collab f)) with (@mixed_first_loop collab).
  change (@mixed_second_loop (with_set_iter collab f)) with (@mixed_second_loop collab).
  change (@flanking_only (with_set_iter collab f)) with (@flanking_only collab).
  destruct (candidate_positions ev (fst (split_reads ev)) (break1 (ev_pair ev)))
    as [pos1|]; simpl; [|reflexivity].
  destruct (candidate_positions ev (snd (split_reads ev)) (break2 (ev_pair ev)))
    as [pos2|]; simpl; [|reflexivity].
  destruct (split_pairings ev et pos1 pos2) as [lp|]; simpl; [|reflexivity].
  destruct (len lp =? 0); [|reflexivity].
  destruct (mixed_first_loop ev et (keys pos1) lp []) as [r1|]; simpl; [|reflexivity].
  destruct (mixed_second_loop ev et (keys pos2) (fst r1) (snd r1)) as [r2|]; simpl;
    [|reflexivity].
  match goal with
  | |- context [bind ?r _] => destruct r as [r3|]
  end; simpl; [|reflexivity].
  destruct (len (fst r3) =? 0); reflexivity.
Qed.

(** The list [call_events] returns does not depend on the iteration order
    of sets. *)
Lemma call_events_set_order ev et l :
  @call_events collab ev et = Ok l ->
  @call_events (with_set_iter collab f) ev et = Ok l.
Proof.
  unfold call_events, call_events_with.
  change (@putative_event_types (with_set_iter collab f))
    with (@putative_event_types collab).
  change (@_call_by_contigs (with_set_iter collab f)) with (@_call_by_contigs collab).
  pose proof (supporting_reads_set_order ev et) as Hs.
  destruct (negb (svtype_in et (putative_event_types ev))); [discriminate|].
  destruct (_call_by_contigs ev et) as [cs|]; simpl; [|discriminate].
  destruct (len cs =? 0) eqn:Ecs.
  2: { simpl. rewrite Ecs. simpl. exact (fun H => H). }
  destruct (@_call_by_supporting_reads collab ev et) as [a|e1],
           (@_call_by_supporting_reads (with_set_iter collab f) ev et) as [b|e2];
    try contradiction.
  - subst b. simpl. change (len (@nil string) >? 0) with false.
    rewrite !andb_false_r. exact (fun H => H).
  - rewrite <- Hs. destruct (kind e1); simpl; try discriminate.
    rewrite Ecs. simpl. discriminate.
Qed.

End SetOrder.

(** ** Enumeration order and determinism *)
Section Enumeration.
Context {collab : Collaborators}.

(** C8, as the code has it.  The candidates of each side are enumerated in
    the order in which their positions are first met among the split reads
    of that side, not in sorted order; the combinations are the product of
    the two enumerations in that order; and the list [call_events] returns
    is the same under every iteration order of hash-based sets. *)
Theorem C8_first_seen_order_and_determinism (ev : Evidence) (et : SVTYPE) :
  (forall pos1,
      candidate_positions ev (fst (split_reads ev)) (break1 (ev_pair ev)) = Ok pos1 ->
      keys pos1
      = filter (fun p => position_kept ev
                           (reads_at (fst (split_reads ev)) (orient (break1 (ev_pair ev))) p))
          (first_occurrences
             (read_positions (fst (split_reads ev)) (orient (break1 (ev_pair ev))))))
  /\ (forall pos2,
      candidate_positions ev (snd (split_reads ev)) (break2 (ev_pair ev)) = Ok pos2 ->
      keys pos2
      = filter (fun p => position_kept ev
                           (reads_at (snd (split_reads ev)) (orient (break2 (ev_pair ev))) p))
          (first_occurrences
             (read_positions (snd (split_reads ev)) (orient (break2 (ev_pair ev))))))
  /\ (forall pos1 pos2,
      svtype_in et (classify (ev_pair ev)) = true ->
      split_pairings ev et pos1 pos2
      = Ok (map (fun fs => mk_split_call ev et (fst fs) (snd fs))
              (linked_positions ev pos1 pos2 ++ unlinked_positions ev pos1 pos2)))
  /\ (forall (f : list string -> list string) l,
      call_events ev et = Ok l ->
      @call_events (with_set_iter collab f) ev et = Ok l).
Proof.
  repeat split.
  - intros pos1. apply candidate_positions_order.
  - intros pos2. apply candidate_positions_order.
  - intros pos1 pos2. apply split_pairings_spec.
  - intros f l. apply call_events_set_order.
Qed.

End Enumeration.

(** ** Bounding by flanking pairs *)
Section FlankingBounding.
Context {collab : Collaborators}.

Lemma fold_min_le r x : fold_left Z.min r x <= x.
Proof.
  revert x. induction r as [|y r IH]; intros x; simpl; [lia|].
  specialize (IH (Z.min x y)). lia.
Qed.

Lemma fold_max_ge r x : x <= fold_left Z.max r x.
Proof.
  revert x. induction r as [|y r IH]; intros x; simpl; [lia|].
  specialize (IH (Z.max x y)). lia.
Qed.

Lemma py_min_le_py_max xs lo hi :
  py_min xs = Ok lo -> py_max xs = Ok hi -> lo <= hi.
Proof.
  destruct xs as [|x r]; simpl; [discriminate|].
  intros H1 H2. injection H1 as <-. injection H2 as <-.
  pose proof (fold_min_le r x). pose proof (fold_max_ge r x). lia.
Qed.

(** Each pair kept adds one to the count and three positions to each side. *)
Lemma flanking_positions_lengths ev et pairs c0 fp0 sp0 c fp sp :
  flanking_positions ev et pairs c0 fp0 sp0 = (c, fp, sp) ->
  c0 <= c
  /\ len fp = len fp0 + 3 * (c - c0)
  /\ len sp = len sp0 + 3 * (c - c0).
Proof.
  revert c0 fp0 sp0.
  induction pairs as [|[read mate] rest IH]; intros c0 fp0 sp0 H; simpl in H.
  - injection H as <- <- <-. lia.
  - match type of H with
    | (if ?b then _ else _) = _ => destruct b
    end.
    + now apply IH.
    + apply IH in H. unfold len in *.
      rewrite !length_app, !Nat2Z.inj_add in H.
      change (Z.of_nat (List.length [reference_start read + 1; reference_end read;
                                     next_reference_start mate + 1])) with 3 in H.
      change (Z.of_nat (List.length [reference_start mate + 1; reference_end mate;
                                     next_reference_start read + 1])) with 3 in H.
      lia.
Qed.

Lemma new_Breakpoint_inv c s e o st b :
  new_Breakpoint c s (Some e) o st = Ok b ->
  s <= e /\ chr b = c /\ start b = s /\ end_ b = e /\ orient b = o /\ strand b = st.
Proof.
  unfold new_Breakpoint. destruct (Z.ltb_spec e s) as [Hlt|Hle]; [discriminate|].
  intros H. injection H as <-. simpl. repeat split. lia.
Qed.

Lemma guarded_Breakpoint_inv c s e o st cover other b :
  guarded_Breakpoint c s e o st cover other = Ok b ->
  s <= e /\ chr b = c /\ start b = s /\ end_ b = e /\ orient b = o /\ strand b = st.
Proof.
  unfold guarded_Breakpoint.
  destruct (new_Breakpoint c s (Some e) o st) as [b'|err] eqn:E.
  - intros H. injection H as <-. now apply new_Breakpoint_inv.
  - destruct (kind err); discriminate.
Qed.

Lemma guarded_Breakpoint_raises c s e o st cover other err :
  guarded_Breakpoint c s e o st cover other = Raise err ->
  kind err = AssertionError.
Proof.
  unfold guarded_Breakpoint, new_Breakpoint.
  destruct (Z.ltb e s); [|discriminate].
  simpl. intros H. injection H as <-. reflexivity.
Qed.

(** What a successful bounding returns. *)
Lemma flanking_ok_inv ev et fc sc f s :
  _call_by_flanking_pairs ev et fc sc = Ok (f, s) ->
  let p := ev_pair ev in
  exists c1 c2,
    flanking_covers ev et = Ok (c1, c2)
    /\ i_start c1 <= i_end c1 /\ i_start c2 <= i_end c2
    /\ (interchromosomal p = false -> overlaps c1 c2 = false)
    /\ 0 <= breakpoint_width ev c1 /\ 0 <= breakpoint_width ev c2
    /\ match fc with
       | Some b => f = b
       | None =>
           chr f = chr (break1 p) /\ orient f = orient (break1 p)
           /\ strand f = strand (break1 p) /\ start f <= end_ f
           /\ match orient (break1 p) with
              | LEFT =>
                  start f = i_end c1
                  /\ end_ f <= i_end c1 + breakpoint_width ev c1
                  /\ (interchromosomal p = false ->
                      end_ f < i_start c2
                      /\ forall sb, sc = Some sb -> end_ f < end_ sb)
              | RIGHT =>
                  start f = Z.max (i_start c1 - breakpoint_width ev c1) 1
                  /\ end_ f = Z.max (i_start c1) 1
              | ORIENT_NS => False
              end
       end
    /\ match sc with
       | Some b => s = b
       | None =>
           chr s = chr (break2 p) /\ orient s = orient (break2 p)
           /\ strand s = strand (break2 p) /\ start s <= end_ s
           /\ match orient (break2 p) with
              | LEFT =>
                  start s = i_end c2
                  /\ end_ s = i_end c2 + breakpoint_width ev c2
              | RIGHT =>
                  end_ s = i_start c2
                  /\ Z.max (i_start c2 - breakpoint_width ev c2) 1 <= start s
                  /\ (interchromosomal p = false ->
                      i_end c1 < start s /\ start f < start s)
                  /\ (interchromosomal p = true ->
                      start s = Z.max (i_start c2 - breakpoint_width ev c2) 1)
              | ORIENT_NS => False
              end
       end.
Proof.
  intros H p. unfold _call_by_flanking_pairs in H. unfold flanking_covers.
  fold p in H.
  assert (Hboth : ~ (exists a b, fc = Some a /\ sc = Some b)).
  { intros (a & b & -> & ->). discriminate H. }
  destruct (flanking_positions ev et (flanking_pairs ev) 0 [] [])
    as [[count fp] sp].
  assert (H' :
    (if count <? min_flanking_pairs_resolution ev
     then raise AssertionError [AStr msg_insufficient_coverage]
     else
       lo1 <- py_min fp ;; hi1 <- py_max fp ;;
       lo2 <- py_min sp ;; hi2 <- py_max sp ;;
       let cover1 := {| i_start := lo1; i_end := hi1 |} in
       let cover2 := {| i_start := lo2; i_end := hi2 |} in
       if negb (interchromosomal p) && overlaps cover1 cover2
       then raise AssertionError
              [AStr msg_coverage_overlaps; AInterval cover1; AInterval cover2]
       else if (interval_len cover1 + read_length ev * 2
                  >? max_expected_fragment_size ev)
               || (interval_len cover2 + read_length ev * 2
                     >? max_expected_fragment_size ev)
       then raise AssertionError
              [AStr msg_coverage_too_large; AInterval cover1; AInterval cover2;
               AInt (max_expected_fragment_size ev)]
       else
         first <-
           match fc with
           | Some b => Ok b
           | None =>
               match orient (break1 p) with
               | LEFT =>
                   guarded_Breakpoint (chr (break1 p)) (i_end cover1)
                     (if negb (interchromosomal p)
                      then match sc with
                           | Some sb =>
                               Z.min (Z.min (i_end cover1 + breakpoint_width ev cover1)
                                            (i_start cover2 - 1)) (end_ sb - 1)
                           | None =>
                               Z.min (i_end cover1 + breakpoint_width ev cover1)
                                     (i_start cover2 - 1)
                           end
                      else i_end cover1 + breakpoint_width ev cover1)
                     (orient (break1 p)) (strand (break1 p)) cover1 sc
               | RIGHT =>
                   new_Breakpoint (chr (break1 p))
                     (Z.max (i_start cover1 - breakpoint_width ev cover1) 1)
                     (Some (Z.max (i_start cover1) 1))
                     (orient (break1 p)) (strand (break1 p))
               | ORIENT_NS => raise NotSpecifiedError [AStr msg_no_orientation]
               end
           end ;;
         second <-
           match sc with
           | Some b => Ok b
           | None =>
               match orient (break2 p) with
               | LEFT =>
                   new_Breakpoint (chr (break2 p)) (i_end cover2)
                     (Some (i_end cover2 + breakpoint_width ev cover2))
                     (orient (break2 p)) (strand (break2 p))
               | RIGHT =>
                   guarded_Breakpoint (chr (break2 p))
                     (if negb (interchromosomal p)
                      then Z.max (Z.max (Z.max (i_start cover2
                                                - breakpoint_width ev cover2) 1)
                                        (i_end cover1 + 1)) (start first + 1)
                      else Z.max (i_start cover2 - breakpoint_width ev cover2) 1)
                     (i_start cover2)
                     (orient (break2 p)) (strand (break2 p)) cover2 (Some first)
               | ORIENT_NS => raise NotSpecifiedError [AStr msg_no_orientation]
               end
           end ;;
         Ok (first, second)) = Ok (f, s)).
  { destruct fc, sc; try exact H. exfalso. apply Hboth. eauto. }
  clear H. revert H'.
  destruct (count <? min_flanking_pairs_resolution ev); [discriminate|].
  destruct (py_min fp) as [lo1|] eqn:E1; simpl; [|discriminate].
  destruct (py_max fp) as [hi1|] eqn:E2; simpl; [|discriminate].
  destruct (py_min sp) as [lo2|] eqn:E3; simpl; [|discriminate].
  destruct (py_max sp) as [hi2|] eqn:E4; simpl; [|discriminate].
  pose proof (py_min_le_py_max _ _ _ E1 E2) as Hc1.
  pose proof (py_min_le_py_max _ _ _ E3 E4) as Hc2.
  set (cover1 := {| i_start := lo1; i_end := hi1 |}).
  set (cover2 := {| i_start := lo2; i_end := hi2 |}).
  destruct (negb (interchromosomal p) && overlaps cover1 cover2) eqn:Eov;
    [discriminate|].
  destruct ((interval_len cover1 + read_length ev * 2 >? max_expected_fragment_size ev)
            || (interval_len cover2 + read_length ev * 2
                  >? max_expected_fragment_size ev)) eqn:Esz; [discriminate|].
  apply orb_false_iff in Esz as [Esz1 Esz2].
  assert (Hw1 : 0 <= breakpoint_width ev cover1) by (unfold breakpoint_width; lia).
  assert (Hw2 : 0 <= breakpoint_width ev cover2) by (unfold breakpoint_width; lia).
  intros H.
  match type of H with
  | bind ?r _ = _ => destruct r as [first|] eqn:Ef
  end; simpl in H; [|discriminate].
  match type of H with
  | bind ?r _ = _ => destruct r as [second|] eqn:Es
  end; simpl in H; [|discriminate].
  injection H as <- <-.
  exists cover1, cover2.
  split; [reflexivity|]. split; [exact Hc1|]. split; [exact Hc2|].
  split.
  { intros Hi. rewrite Hi in Eov. exact Eov. }
  split; [exact Hw1|]. split; [exact Hw2|].
  split.
  - destruct fc as [b|]; [congruence|].
    destruct (orient (break1 p)) eqn:Eo; [| |discriminate].
    + apply guarded_Breakpoint_inv in Ef as (Hle & Hch & Hs & He & Ho & Hst);
        subst cover1 cover2; cbn [i_start i_end] in *.
      split; [exact Hch|]. split; [exact Ho|]. split; [exact Hst|].
      split; [lia|]. split; [exact Hs|].
      destruct (interchromosomal p), sc as [sb0|]; simpl in He;
        (split; [lia|]); intros Hi; try discriminate Hi;
        (split; [lia|]); intros sb Hsb; try discriminate Hsb.
      injection Hsb as <-. lia.
    + apply new_Breakpoint_inv in Ef as (Hle & Hch & Hs & He & Ho & Hst);
        subst cover1 cover2; cbn [i_start i_end] in *.
      repeat split; assumption || lia.
  - destruct sc as [b|]; [congruence|].
    destruct (orient (break2 p)) eqn:Eo; [| |discriminate].
    + apply new_Breakpoint_inv in Es as (Hle & Hch & Hs & He & Ho & Hst);
        subst cover1 cover2; cbn [i_start i_end] in *.
      repeat split; assumption || lia.
    + apply guarded_Breakpoint_inv in Es as (Hle & Hch & Hs & He & Ho & Hst);
        subst cover1 cover2; cbn [i_start i_end] in *.
      split; [exact Hch|]. split; [exact Ho|]. split; [exact Hst|].
      split; [lia|]. split; [exact He|].
      destruct (interchromosomal p); simpl in Hs;
        (split; [lia|]); split; intros Hi; try discriminate Hi; lia.
Qed.

Lemma new_Breakpoint_raise_inv c s e o st err :
  new_Breakpoint c s (Some e) o st = Raise err -> e < s.
Proof.
  unfold new_Breakpoint. destruct (Z.ltb_spec e s) as [Hlt|Hle];
    [intros _; exact Hlt|discriminate].
Qed.

(** With both orientations given, at most one side fixed and a threshold of
    at least one pair, a bounding that fails fails with [AssertionError]. *)
Lemma flanking_raise_inv ev et fc sc e :
  fc = None \/ sc = None ->
  orient (break1 (ev_pair ev)) <> ORIENT_NS ->
  orient (break2 (ev_pair ev)) <> ORIENT_NS ->
  1 <= min_flanking_pairs_resolution ev ->
  _call_by_flanking_pairs ev et fc sc = Raise e ->
  kind e = AssertionError.
Proof.
  intros Hnb Ho1 Ho2 Hmin H. unfold _call_by_flanking_pairs in H.
  destruct (flanking_positions ev et (flanking_pairs ev) 0 [] [])
    as [[count fp] sp] eqn:Efp.
  apply flanking_positions_lengths in Efp as (Hc & Hfp & Hsp).
  assert (Hne1 : 1 <= count -> fp <> []).
  { intros Hc1 Hnil. rewrite Hnil in Hfp. change (len (@nil Z)) with 0 in Hfp. lia. }
  assert (Hne2 : 1 <= count -> sp <> []).
  { intros Hc1 Hnil. rewrite Hnil in Hsp. change (len (@nil Z)) with 0 in Hsp. lia. }
  clear Hfp Hsp.
  destruct (orient (break1 (ev_pair ev))) eqn:Eo1; [| |now elim Ho1];
    destruct (orient (break2 (ev_pair ev))) eqn:Eo2; try (now elim Ho2);
    (destruct fc as [b1|], sc as [b2|]; [destruct Hnb; discriminate| | |]);
    (destruct (Z.ltb_spec count (min_flanking_pairs_resolution ev)) as [Hlt|Hge];
       [injection H as <-; reflexivity|]);
    (destruct fp as [|x1 r1]; [exfalso; apply Hne1; [lia|reflexivity]|]);
    (destruct sp as [|x2 r2]; [exfalso; apply Hne2; [lia|reflexivity]|]);
    cbn [py_min py_max bind] in H;
    (match type of H with
     | (if ?c then _ else _) = _ => destruct c; [injection H as <-; reflexivity|]
     end);
    (match type of H with
     | (if ?c then _ else _) = _ =>
         destruct c eqn:Esz; [injection H as <-; reflexivity|]
     end);
    apply orb_false_iff in Esz as [Esz1 Esz2];
    repeat (match type of H with
            | bind ?r _ = _ =>
                let E := fresh "E" in
                destruct r as [?|?] eqn:E; cbn [bind] in H;
                [|injection H as <-;
                  first [ exact (guarded_Breakpoint_raises _ _ _ _ _ _ _ _ E)
                        | apply new_Breakpoint_raise_inv in E; exfalso;
                          unfold interval_len in *; cbn [i_start i_end] in *; lia ]]
            end);
    discriminate H.
Qed.

(** X7.  A breakpoint interval bounded by flanking pairs is a proper interval and,
    together with the coverage of its side and two read lengths, stays
    within the largest expected fragment size. *)
Theorem flanking_bounds_fit_fragment_size ev et fc sc f s :
  _call_by_flanking_pairs ev et fc sc = Ok (f, s) ->
  exists c1 c2,
    flanking_covers ev et = Ok (c1, c2)
    /\ (fc = None ->
        start f <= end_ f
        /\ interval_len c1 + (end_ f - start f) + read_length ev * 2
           <= max_expected_fragment_size ev)
    /\ (sc = None ->
        start s <= end_ s
        /\ interval_len c2 + (end_ s - start s) + read_length ev * 2
           <= max_expected_fragment_size ev).
Proof.
  intros H. apply flanking_ok_inv in H.
  destruct H as (c1 & c2 & Hcov & Hc1 & Hc2 & _ & Hw1 & Hw2 & Hf & Hs).
  exists c1, c2. split; [exact Hcov|].
  unfold breakpoint_width in *. split.
  - intros ->. destruct Hf as (_ & _ & _ & Hle & Hf).
    split; [exact Hle|].
    destruct (orient (break1 (ev_pair ev))); [| |contradiction]; lia.
  - intros ->. destruct Hs as (_ & _ & _ & Hle & Hs).
    split; [exact Hle|].
    destruct (orient (break2 (ev_pair ev))); [| |contradiction]; lia.
Qed.

(** X8.  A side bounded by flanking pairs takes its chromosome, orientation and
    strand from the evidence and touches the coverage of its side: a LEFT
    breakpoint starts at the last covered position, a RIGHT breakpoint ends
    at the first covered position (the first side, at coordinate 1 at
    least), and a RIGHT breakpoint never starts below coordinate 1. *)
Theorem flanking_bounds_touch_coverage ev et fc sc f s :
  _call_by_flanking_pairs ev et fc sc = Ok (f, s) ->
  exists c1 c2,
    flanking_covers ev et = Ok (c1, c2)
    /\ (fc = None ->
        chr f = chr (break1 (ev_pair ev))
        /\ orient f = orient (break1 (ev_pair ev))
        /\ strand f = strand (break1 (ev_pair ev))
        /\ (orient f = LEFT -> start f = i_end c1)
        /\ (orient f = RIGHT -> end_ f = Z.max (i_start c1) 1 /\ 1 <= start f))
    /\ (sc = None ->
        chr s = chr (break2 (ev_pair ev))
        /\ orient s = orient (break2 (ev_pair ev))
        /\ strand s = strand (break2 (ev_pair ev))
        /\ (orient s = LEFT -> start s = i_end c2)
        /\ (orient s = RIGHT -> end_ s = i_start c2 /\ 1 <= start s)).
Proof.
  intros H. apply flanking_ok_inv in H.
  destruct H as (c1 & c2 & Hcov & Hc1 & Hc2 & _ & Hw1 & Hw2 & Hf & Hs).
  exists c1, c2. split; [exact Hcov|]. split.
  - intros ->. destruct Hf as (Hch & Ho & Hst & Hle & Hf).
    split; [exact Hch|]. split; [exact Ho|]. split; [exact Hst|].
    rewrite Ho.
    destruct (orient (break1 (ev_pair ev))); [| |contradiction];
      split; intros Ho'; try discriminate Ho'; lia.
  - intros ->. destruct Hs as (Hch & Ho & Hst & Hle & Hs).
    split; [exact Hch|]. split; [exact Ho|]. split; [exact Hst|].
    rewrite Ho.
    destruct (orient (break2 (ev_pair ev))); [| |contradiction];
      split; intros Ho'; try discriminate Ho'; lia.
Qed.

(** X9.  On one chromosome, the two clamped branches keep the sides in order: a
    second breakpoint bounded with orientation RIGHT starts after the start
    of the first breakpoint and after the coverage of the first side; a
    first breakpoint bounded with orientation LEFT ends before the coverage
    of the second side and before the end of a fixed second breakpoint. *)
Theorem flanking_clamped_sides_keep_order ev et fc sc f s :
  _call_by_flanking_pairs ev et fc sc = Ok (f, s) ->
  interchromosomal (ev_pair ev) = false ->
  exists c1 c2,
    flanking_covers ev et = Ok (c1, c2)
    /\ (sc = None -> orient (break2 (ev_pair ev)) = RIGHT ->
        start f < start s /\ i_end c1 < start s)
    /\ (fc = None -> orient (break1 (ev_pair ev)) = LEFT ->
        end_ f < i_start c2 /\ forall sb, sc = Some sb -> end_ f < end_ sb).
Proof.
  intros H Hi. apply flanking_ok_inv in H.
  destruct H as (c1 & c2 & Hcov & Hc1 & Hc2 & _ & Hw1 & Hw2 & Hf & Hs).
  exists c1, c2. split; [exact Hcov|]. split.
  - intros -> Ho. rewrite Ho in Hs.
    destruct Hs as (_ & _ & _ & _ & _ & _ & Hs & _). specialize (Hs Hi). lia.
  - intros -> Ho. rewrite Ho in Hf.
    destruct Hf as (_ & _ & _ & _ & _ & _ & Hf). exact (Hf Hi).
Qed.

(** X10.  A side the caller fixes is returned as given; fixing both is refused. *)
Theorem flanking_fixed_side_is_returned ev et fc sc f s :
  _call_by_flanking_pairs ev et fc sc = Ok (f, s) ->
  (fc = None \/ sc = None)
  /\ (forall b, fc = Some b -> f = b)
  /\ (forall b, sc = Some b -> s = b).
Proof.
  intros H. split.
  - destruct fc, sc; auto. discriminate H.
  - apply flanking_ok_inv in H.
    destruct H as (c1 & c2 & _ & _ & _ & _ & _ & _ & Hf & Hs).
    split; intros b ->; assumption.
Qed.

(** X11.  With both orientations given, at most one side fixed and a threshold of
    at least one pair, every failure of the bounding is an
    [AssertionError], the kind the split-read resolver records and skips. *)
Theorem flanking_failure_is_AssertionError ev et fc sc e :
  fc = None \/ sc = None ->
  orient (break1 (ev_pair ev)) <> ORIENT_NS ->
  orient (break2 (ev_pair ev)) <> ORIENT_NS ->
  1 <= min_flanking_pairs_resolution ev ->
  _call_by_flanking_pairs ev et fc sc = Raise e ->
  kind e = AssertionError /\ caught e = true.
Proof.
  intros Hnb Ho1 Ho2 Hmin H.
  pose proof (flanking_raise_inv _ _ _ _ _ Hnb Ho1 Ho2 Hmin H) as Hk.
  split; [exact Hk|]. unfold caught. now rewrite Hk.
Qed.

(** X12.  With a threshold of zero pairs or less and no pair kept, the bounding
    takes the minimum of an empty list and leaves with [ValueError]. *)
Theorem flanking_without_pairs_raises_ValueError ev et fc sc :
  fc = None \/ sc = None ->
  flanking_count ev et = 0 ->
  min_flanking_pairs_resolution ev <= 0 ->
  _call_by_flanking_pairs ev et fc sc
  = raise ValueError [AStr "min() arg is an empty sequence"].
Proof.
  intros Hnb Hc Hmin. unfold _call_by_flanking_pairs, flanking_count in *.
  destruct (flanking_positions ev et (flanking_pairs ev) 0 [] [])
    as [[count fp] sp] eqn:Efp.
  simpl in Hc. subst count.
  apply flanking_positions_lengths in Efp as (_ & Hfp & _).
  assert (fp = []) as ->.
  { destruct fp; [reflexivity|]. unfold len in Hfp. simpl List.length in Hfp.
    rewrite Nat2Z.inj_succ in Hfp. change (Z.of_nat 0) with 0 in Hfp. lia. }
  destruct (Z.ltb_spec 0 (min_flanking_pairs_resolution ev)) as [Hlt|_]; [lia|].
  destruct fc, sc; try reflexivity. destruct Hnb; discriminate.
Qed.

(** X13.  On one chromosome, overlapping coverage of the two sides makes the
    bounding fail, whatever side is fixed. *)
Theorem flanking_overlapping_coverage_fails ev et fc sc c1 c2 :
  fc = None \/ sc = None ->
  min_flanking_pairs_resolution ev <= flanking_count ev et ->
  flanking_covers ev et = Ok (c1, c2) ->
  interchromosomal (ev_pair ev) = false ->
  overlaps c1 c2 = true ->
  _call_by_flanking_pairs ev et fc sc
  = raise AssertionError [AStr msg_coverage_overlaps; AInterval c1; AInterval c2].
Proof.
  intros Hnb Hc Hcov Hi Hov.
  unfold _call_by_flanking_pairs, flanking_count, flanking_covers in *.
  destruct (flanking_positions ev et (flanking_pairs ev) 0 [] [])
    as [[count fp] sp].
  simpl in Hc.
  destruct (Z.ltb_spec count (min_flanking_pairs_resolution ev)) as [Hlt|_]; [lia|].
  destruct (py_min fp) as [lo1|]; simpl in Hcov; [|discriminate].
  destruct (py_max fp) as [hi1|]; simpl in Hcov; [|discriminate].
  destruct (py_min sp) as [lo2|]; simpl in Hcov; [|discriminate].
  destruct (py_max sp) as [hi2|]; simpl in Hcov; [|discriminate].
  injection Hcov as <- <-.
  destruct fc, sc; [destruct Hnb; discriminate| | |];
    cbn [bind]; rewrite Hi, Hov; reflexivity.
Qed.

End FlankingBounding.

(** ** Invariants of the calls of the split-read resolver *)
Section ResolverInvariants.
Context {collab : Collaborators}.

(** What a successful construction of a call fixes. *)
Lemma new_EventCall_inv npos kws b1 b2 ev et cm b2cm ctg al u c :
  new_EventCall npos kws b1 b2 ev et cm b2cm ctg al u = Ok c ->
  event_type c = et /\ evidence c = ev /\ contig c = ctg
  /\ svtype_in et (classify (ev_pair ev)) = true
  /\ break1 (ec_pair c) = b1 /\ break2 (ec_pair c) = b2
  /\ opposing_strands (ec_pair c) = opposing_strands (ev_pair ev)
  /\ (ctg = None ->
      exists m1, cm = Some m1
                 /\ call_method c = (m1, match b2cm with Some m2 => m2 | None => m1 end)).
Proof.
  unfold new_EventCall.
  destruct (bind_arguments "__init__" EventCall_params 5 npos kws); [|discriminate].
  cbn [bind]. unfold EventCall___init__, BreakpointPair___init__. cbn [bind].
  destruct (svtype_in et (classify (ev_pair ev))); [|discriminate].
  cbn [negb].
  destruct ctg as [ctg|].
  - destruct cm, b2cm; try discriminate.
    intros H. injection H as <-. simpl. repeat split. discriminate.
  - destruct b2cm as [m2|], cm as [m1|]; try discriminate;
      intros H; injection H as <-; simpl; repeat split;
      intros _; exists m1; split; reflexivity.
Qed.

Lemma at_position_same_locus b pos : same_locus (at_position b pos) b.
Proof. repeat split. Qed.

Lemma split_call_inv ev et pos1 pos2 first second c :
  In first (keys pos1) -> In second (keys pos2) ->
  split_call ev et first second = Ok c ->
  resolved_from ev et pos1 pos2 c /\ call_method c = (SPLIT, SPLIT).
Proof.
  intros H1 H2. unfold split_call, new_Breakpoint. rewrite !Z.ltb_irrefl.
  cbn [bind]. intros H. apply new_EventCall_inv in H.
  destruct H as (Het & Hev & Hctg & Hcl & Hb1 & Hb2 & Hop & Hcm).
  destruct (Hcm eq_refl) as (m1 & Hm & Hcm'). injection Hm as <-.
  split; [|exact Hcm'].
  unfold resolved_from. rewrite Hb1, Hb2, Hcm'. simpl.
  repeat split; try assumption; try lia.
  - intros _. exists first. split; [exact H1|reflexivity].
  - intros _. exists second. split; [exact H2|reflexivity].
Qed.

Lemma linked_loop_Forall (P : EventCall -> Prop) ev et pos1 pos2 pairs acc l :
  (forall first second c,
      In (first, second) pairs -> split_call ev et first second = Ok c -> P c) ->
  Forall P acc ->
  linked_loop ev et pos1 pos2 pairs acc = Ok l ->
  Forall P l.
Proof.
  revert acc. induction pairs as [|[first second] rest IH]; intros acc Hp Hacc H;
    simpl in H.
  - now injection H as <-.
  - assert (Hrest : forall f s c, In (f, s) rest -> split_call ev et f s = Ok c -> P c).
    { intros f s c Hin. apply Hp. now right. }
    destruct (same_chr ev && (first >=? second)); [now apply (IH acc)|].
    destruct (links pos1 pos2 first second <? min_linking_split_reads ev);
      [now apply (IH acc)|].
    destruct (split_call ev et first second) as [c|] eqn:E; [|discriminate].
    cbn [bind] in H. apply (IH (acc ++ [c])); [exact Hrest| |exact H].
    apply Forall_app. split; [exact Hacc|].
    constructor; [|constructor]. apply (Hp first second); [now left|exact E].
Qed.

Lemma unlinked_loop_Forall (P : EventCall -> Prop) ev et pairs acc l :
  (forall first second c,
      In (first, second) pairs -> split_call ev et first second = Ok c -> P c) ->
  Forall P acc ->
  unlinked_loop ev et pairs acc = Ok l ->
  Forall P l.
Proof.
  revert acc. induction pairs as [|[first second] rest IH]; intros acc Hp Hacc H;
    simpl in H.
  - now injection H as <-.
  - assert (Hrest : forall f s c, In (f, s) rest -> split_call ev et f s = Ok c -> P c).
    { intros f s c Hin. apply Hp. now right. }
    destruct (same_chr ev && (first >=? second)); [now apply (IH acc)|].
    destruct (split_call ev et first second) as [c|] eqn:E; [|discriminate].
    cbn [bind] in H. apply (IH (acc ++ [c])); [exact Hrest| |exact H].
    apply Forall_app. split; [exact Hacc|].
    constructor; [|constructor]. apply (Hp first second); [now left|exact E].
Qed.

Lemma leftover_in_keys pos used p : In p (leftover pos used) -> In p (keys pos).
Proof. unfold leftover. intros H. now apply filter_In in H as [H _]. Qed.

Lemma split_pairings_Forall ev et pos1 pos2 l :
  split_pairings ev et pos1 pos2 = Ok l ->
  Forall (fun c => resolved_from ev et pos1 pos2 c
                   /\ call_method c = (SPLIT, SPLIT)) l.
Proof.
  unfold split_pairings. intros H.
  destruct (linked_loop ev et pos1 pos2 (list_prod (keys pos1) (keys pos2)) [])
    as [lp|] eqn:E; [|discriminate].
  cbn [bind] in H.
  eapply unlinked_loop_Forall; [| |exact H].
  - intros first second c Hin. apply in_prod_iff in Hin as [H1 H2].
    apply split_call_inv; eapply leftover_in_keys; eassumption.
  - eapply linked_loop_Forall; [| |exact E]; [|constructor].
    intros first second c Hin. apply in_prod_iff in Hin as [H1 H2].
    now apply split_call_inv.
Qed.

(** A call of the mixed or flanking stages: the bounding it comes from. *)
Lemma flanking_call_inv ev et fc sc kws m1 m2 c :
  flanking_call ev et fc sc kws (Some m1) m2 = Ok c ->
  exists f s,
    _call_by_flanking_pairs ev et fc sc = Ok (f, s)
    /\ event_type c = et /\ evidence c = ev /\ contig c = None
    /\ svtype_in et (classify (ev_pair ev)) = true
    /\ break1 (ec_pair c) = f /\ break2 (ec_pair c) = s
    /\ opposing_strands (ec_pair c) = opposing_strands (ev_pair ev)
    /\ call_method c = (m1, match m2 with Some m => m | None => m1 end).
Proof.
  unfold flanking_call.
  destruct (_call_by_flanking_pairs ev et fc sc) as [[f s]|] eqn:E; [|discriminate].
  cbn [bind fst snd]. intros H. apply new_EventCall_inv in H.
  destruct H as (Het & Hev & Hctg & Hcl & Hb1 & Hb2 & Hop & Hcm).
  destruct (Hcm eq_refl) as (m & Hm & Hcm'). injection Hm as <-.
  exists f, s. repeat split; assumption.
Qed.

(** The loci and the shape of the two breakpoints of a bounding. *)
Lemma flanking_sides_at_loci ev et fc sc f s :
  _call_by_flanking_pairs ev et fc sc = Ok (f, s) ->
  (forall b, fc = Some b ->
     same_locus b (break1 (ev_pair ev)) /\ start b <= end_ b) ->
  (forall b, sc = Some b ->
     same_locus b (break2 (ev_pair ev)) /\ start b <= end_ b) ->
  same_locus f (break1 (ev_pair ev)) /\ start f <= end_ f
  /\ same_locus s (break2 (ev_pair ev)) /\ start s <= end_ s.
Proof.
  intros H Hf Hs. apply flanking_ok_inv in H.
  destruct H as (c1 & c2 & _ & _ & _ & _ & _ & _ & Hf' & Hs').
  assert (H1 : same_locus f (break1 (ev_pair ev)) /\ start f <= end_ f).
  { destruct fc as [b|].
    - subst f. now apply Hf.
    - destruct Hf' as (? & ? & ? & ? & _). repeat split; assumption. }
  assert (H2 : same_locus s (break2 (ev_pair ev)) /\ start s <= end_ s).
  { destruct sc as [b|].
    - subst s. now apply Hs.
    - destruct Hs' as (? & ? & ? & ? & _). repeat split; assumption. }
  tauto.
Qed.

Lemma mixed_first_call_inv ev et pos1 pos2 pos c :
  In pos (keys pos1) ->
  flanking_call ev et (Some (at_position (break1 (ev_pair ev)) pos)) None
    ["call_method"; "break2_call_method"] (Some SPLIT) (Some FLANK) = Ok c ->
  resolved_from ev et pos1 pos2 c /\ call_method c = (SPLIT, FLANK).
Proof.
  intros Hin H. apply flanking_call_inv in H.
  destruct H as (f & s & Hfl & Het & Hev & Hctg & Hcl & Hb1 & Hb2 & Hop & Hcm).
  pose proof (flanking_ok_inv _ _ _ _ _ _ Hfl) as Hinv.
  destruct Hinv as (_ & _ & _ & _ & _ & _ & _ & _ & Hf & _).
  simpl in Hf.
  destruct (flanking_sides_at_loci _ _ _ _ _ _ Hfl) as (L1 & S1 & L2 & S2).
  { intros b Hb. injection Hb as <-. split; [apply at_position_same_locus|simpl; lia]. }
  { intros b Hb. discriminate Hb. }
  split; [|exact Hcm].
  unfold resolved_from. rewrite Hb1, Hb2, Hcm. simpl.
  repeat split; try assumption; try apply L1; try apply L2.
  - intros _. exists pos. split; [exact Hin|exact Hf].
  - intros Hx. discriminate Hx.
Qed.

Lemma mixed_second_call_inv ev et pos1 pos2 pos c :
  In pos (keys pos2) ->
  flanking_call ev et None (Some (at_position (break2 (ev_pair ev)) pos))
    ["call_method"; "break2_call_method"] (Some FLANK) (Some SPLIT) = Ok c ->
  resolved_from ev et pos1 pos2 c /\ call_method c = (FLANK, SPLIT).
Proof.
  intros Hin H. apply flanking_call_inv in H.
  destruct H as (f & s & Hfl & Het & Hev & Hctg & Hcl & Hb1 & Hb2 & Hop & Hcm).
  pose proof (flanking_ok_inv _ _ _ _ _ _ Hfl) as Hinv.
  destruct Hinv as (_ & _ & _ & _ & _ & _ & _ & _ & _ & Hs).
  simpl in Hs.
  destruct (flanking_sides_at_loci _ _ _ _ _ _ Hfl) as (L1 & S1 & L2 & S2).
  { intros b Hb. discriminate Hb. }
  { intros b Hb. injection Hb as <-. split; [apply at_position_same_locus|simpl; lia]. }
  split; [|exact Hcm].
  unfold resolved_from. rewrite Hb1, Hb2, Hcm. simpl.
  repeat split; try assumption; try apply L1; try apply L2.
  - intros Hx. discriminate Hx.
  - intros _. exists pos. split; [exact Hin|exact Hs].
Qed.

Lemma flanking_only_call_inv ev et pos1 pos2 c :
  flanking_call ev et None None ["call_method"] (Some FLANK) None = Ok c ->
  resolved_from ev et pos1 pos2 c /\ call_method c = (FLANK, FLANK).
Proof.
  intros H. apply flanking_call_inv in H.
  destruct H as (f & s & Hfl & Het & Hev & Hctg & Hcl & Hb1 & Hb2 & Hop & Hcm).
  destruct (flanking_sides_at_loci _ _ _ _ _ _ Hfl) as (L1 & S1 & L2 & S2);
    try (intros b Hb; discriminate Hb).
  split; [|exact Hcm].
  unfold resolved_from. rewrite Hb1, Hb2, Hcm. simpl.
  repeat split; try assumption; try apply L1; try apply L2;
    intros Hx; discriminate Hx.
Qed.

Lemma mixed_first_loop_Forall (P : EventCall -> Prop) ev et positions acc errs r :
  (forall pos c,
      In pos positions ->
      flanking_call ev et (Some (at_position (break1 (ev_pair ev)) pos)) None
        ["call_method"; "break2_call_method"] (Some SPLIT) (Some FLANK) = Ok c ->
      P c) ->
  Forall P acc ->
  mixed_first_loop ev et positions acc errs = Ok r ->
  Forall P (fst r).
Proof.
  revert acc errs. induction positions as [|pos rest IH]; intros acc errs Hp Hacc H;
    simpl in H.
  - now injection H as <-.
  - assert (Hrest : forall q c, In q rest ->
              flanking_call ev et (Some (at_position (break1 (ev_pair ev)) q)) None
                ["call_method"; "break2_call_method"] (Some SPLIT) (Some FLANK) = Ok c ->
              P c).
    { intros q c Hq. apply Hp. now right. }
    destruct (flanking_call ev et (Some (at_position (break1 (ev_pair ev)) pos)) None
                ["call_method"; "break2_call_method"] (Some SPLIT) (Some FLANK))
      as [c|e] eqn:E.
    + apply (IH _ _ Hrest) in H; [exact H|].
      apply Forall_app. split; [exact Hacc|].
      constructor; [|constructor]. apply (Hp pos); [now left|exact E].
    + destruct (caught e); [|discriminate]. now apply (IH _ _ Hrest) in H.
Qed.

Lemma mixed_second_loop_Forall (P : EventCall -> Prop) ev et positions acc errs r :
  (forall pos c,
      In pos positions ->
      flanking_call ev et None (Some (at_position (break2 (ev_pair ev)) pos))
        ["call_method"; "break2_call_method"] (Some FLANK) (Some SPLIT) = Ok c ->
      P c) ->
  Forall P acc ->
  mixed_second_loop ev et positions acc errs = Ok r ->
  Forall P (fst r).
Proof.
  revert acc errs. induction positions as [|pos rest IH]; intros acc errs Hp Hacc H;
    simpl in H.
  - now injection H as <-.
  - assert (Hrest : forall q c, In q rest ->
              flanking_call ev et None (Some (at_position (break2 (ev_pair ev)) q))
                ["call_method"; "break2_call_method"] (Some FLANK) (Some SPLIT) = Ok c ->
              P c).
    { intros q c Hq. apply Hp. now right. }
    destruct (flanking_call ev et None (Some (at_position (break2 (ev_pair ev)) pos))
                ["call_method"; "break2_call_method"] (Some FLANK) (Some SPLIT))
      as [c|e] eqn:E.
    + apply (IH _ _ Hrest) in H; [exact H|].
      apply Forall_app. split; [exact Hacc|].
      constructor; [|constructor]. apply (Hp pos); [now left|exact E].
    + destruct (caught e); [|discriminate]. now apply (IH _ _ Hrest) in H.
Qed.

Lemma len_zero_nil {A} (l : list A) : (len l =? 0) = true -> l = [].
Proof.
  destruct l; [reflexivity|]. unfold len. simpl List.length.
  rewrite Nat2Z.inj_succ. intros H. apply Z.eqb_eq in H. lia.
Qed.

(** The stage a result of the resolver comes from, with the candidates of
    the two sides. *)
Lemma supporting_reads_inv ev et l :
  _call_by_supporting_reads ev et = Ok l ->
  exists pos1 pos2,
    candidate_positions ev (fst (split_reads ev)) (break1 (ev_pair ev)) = Ok pos1
    /\ candidate_positions ev (snd (split_reads ev)) (break2 (ev_pair ev)) = Ok pos2
    /\ l <> []
    /\ Forall (resolved_from ev et pos1 pos2) l
    /\ ((split_pairings ev et pos1 pos2 = Ok l
         /\ Forall (fun c => call_method c = (SPLIT, SPLIT)) l)
        \/ (split_pairings ev et pos1 pos2 = Ok []
            /\ Forall (fun c => mixed_methods (call_method c)) l)
        \/ (split_pairings ev et pos1 pos2 = Ok []
            /\ exists c, l = [c] /\ call_method c = (FLANK, FLANK))).
Proof.
  unfold _call_by_supporting_reads. intros H.
  destruct (candidate_positions ev (fst (split_reads ev)) (break1 (ev_pair ev)))
    as [pos1|]; [|discriminate].
  destruct (candidate_positions ev (snd (split_reads ev)) (break2 (ev_pair ev)))
    as [pos2|]; [|discriminate].
  cbn [bind] in H. exists pos1, pos2. split; [reflexivity|]. split; [reflexivity|].
  destruct (split_pairings ev et pos1 pos2) as [lp|] eqn:Esp; [|discriminate].
  cbn [bind] in H. pose proof (split_pairings_Forall _ _ _ _ _ Esp) as Hlp.
  destruct (len lp =? 0) eqn:Elp.
  2: { injection H as <-. split.
       { intros ->. discriminate Elp. }
       split.
       - eapply Forall_impl; [|exact Hlp]. now intros c [Hc _].
       - left. split; [reflexivity|].
         eapply Forall_impl; [|exact Hlp]. now intros c [_ Hc]. }
  apply len_zero_nil in Elp. subst lp.
  destruct (mixed_first_loop ev et (keys pos1) [] []) as [r1|] eqn:E1; [|discriminate].
  cbn [bind] in H.
  destruct (mixed_second_loop ev et (keys pos2) (fst r1) (snd r1)) as [r2|] eqn:E2;
    [|discriminate].
  cbn [bind] in H.
  assert (H1 : Forall (fun c => resolved_from ev et pos1 pos2 c
                                /\ mixed_methods (call_method c)) (fst r1)).
  { eapply (mixed_first_loop_Forall _ _ _ _ _ _ _ _ _ E1). Unshelve.
    - intros pos c Hin Hc.
      destruct (mixed_first_call_inv _ _ pos1 pos2 _ _ Hin Hc) as [Hr Hm].
      split; [exact Hr|]. now left.
    - constructor. }
  assert (H2 : Forall (fun c => resolved_from ev et pos1 pos2 c
                                /\ mixed_methods (call_method c)) (fst r2)).
  { eapply (mixed_second_loop_Forall _ _ _ _ _ _ _ _ _ E2). Unshelve.
    - intros pos c Hin Hc.
      destruct (mixed_second_call_inv _ _ pos1 pos2 _ _ Hin Hc) as [Hr Hm].
      split; [exact Hr|]. now right.
    - exact H1. }
  destruct (len (fst r2) =? 0) eqn:Er2.
  2: { cbn [bind] in H. rewrite Er2 in H. injection H as <-. split.
       { intros Hn. rewrite Hn in Er2. discriminate Er2. }
       split.
       - eapply Forall_impl; [|exact H2]. now intros c [Hc _].
       - right. left. split; [reflexivity|].
         eapply Forall_impl; [|exact H2]. now intros c [_ Hc]. }
  apply len_zero_nil in Er2.
  unfold flanking_only in H. rewrite Er2 in H.
  destruct (flanking_call ev et None None ["call_method"] (Some FLANK) None)
    as [c|e] eqn:Ef.
  - cbn [bind fst app] in H. change (len [c] =? 0) with false in H.
    injection H as <-.
    destruct (flanking_only_call_inv _ _ pos1 pos2 _ Ef) as [Hr Hm].
    split; [discriminate|]. split; [constructor; [exact Hr|constructor]|].
    right. right. split; [reflexivity|]. exists c. now split.
  - destruct (caught e); [|discriminate]. cbn [bind fst] in H. discriminate H.
Qed.

End ResolverInvariants.

(** ** What the resolvers return and how they fail *)
Section ResolverResults.
Context {collab : Collaborators}.

(** X1.  [call_events] never returns an empty list, and every call it returns
    answers the request: it carries the requested type, which the evidence
    allows, points to the evidence it was made from, keeps its strand
    relation, and has two proper breakpoints on the chromosomes, with the
    orientations and strands, of the evidence. *)
Theorem call_events_calls_answer_request ev et l :
  call_events ev et = Ok l ->
  l <> []
  /\ svtype_in et (putative_event_types ev) = true
  /\ forall c, In c l ->
       event_type c = et /\ evidence c = ev
       /\ svtype_in et (classify (ev_pair ev)) = true
       /\ opposing_strands (ec_pair c) = opposing_strands (ev_pair ev)
       /\ same_locus (break1 (ec_pair c)) (break1 (ev_pair ev))
       /\ same_locus (break2 (ec_pair c)) (break2 (ev_pair ev))
       /\ start (break1 (ec_pair c)) <= end_ (break1 (ec_pair c))
       /\ start (break2 (ec_pair c)) <= end_ (break2 (ec_pair c)).
Proof.
  unfold call_events, call_events_with. intros H.
  destruct (svtype_in et (putative_event_types ev)); [|discriminate].
  cbn [negb] in H.
  destruct (_call_by_contigs ev et) as [cs|] eqn:Ec; [|discriminate].
  apply _call_by_contigs_returns_no_call in Ec. subst cs.
  cbn [bind app] in H. change (len (@nil EventCall) =? 0) with true in H.
  destruct (_call_by_supporting_reads ev et) as [a|e] eqn:Es.
  - cbn [bind fst snd app] in H.
    apply supporting_reads_inv in Es.
    destruct Es as (pos1 & pos2 & _ & _ & Hne & Hall & _).
    destruct a as [|c0 a']; [now elim Hne|].
    change (len (@nil string) >? 0) with false in H. rewrite andb_false_r in H.
    assert (Hlen : (len (c0 :: a') =? 0) = false).
    { unfold len. simpl List.length. rewrite Nat2Z.inj_succ.
      apply Z.eqb_neq. lia. }
    rewrite Hlen in H. injection H as <-.
    split; [discriminate|]. split; [reflexivity|].
    intros c Hin. rewrite Forall_forall in Hall.
    destruct (Hall c Hin) as (? & ? & _ & ? & ? & ? & ? & ? & ? & _).
    repeat (split; [assumption|]). assumption.
  - destruct (kind e); discriminate H.
Qed.

(** X3.  The stages of the split-read resolver do not mix: its calls are all
    (SPLIT, SPLIT), or all (SPLIT, FLANK) or (FLANK, SPLIT), or it returns
    one call (FLANK, FLANK); none of them has a contig or the method CONTIG. *)
Theorem supporting_reads_stages_do_not_mix ev et l :
  _call_by_supporting_reads ev et = Ok l ->
  (Forall (fun c => call_method c = (SPLIT, SPLIT)) l
   \/ Forall (fun c => mixed_methods (call_method c)) l
   \/ exists c, l = [c] /\ call_method c = (FLANK, FLANK))
  /\ Forall (fun c => contig c = None
                      /\ fst (call_method c) <> CONTIG
                      /\ snd (call_method c) <> CONTIG) l.
Proof.
  intros H. apply supporting_reads_inv in H.
  destruct H as (pos1 & pos2 & _ & _ & _ & Hall & Hst).
  assert (Hcases : Forall (fun c => call_method c = (SPLIT, SPLIT)) l
                   \/ Forall (fun c => mixed_methods (call_method c)) l
                   \/ exists c, l = [c] /\ call_method c = (FLANK, FLANK)).
  { destruct Hst as [[_ H]|[[_ H]|[_ H]]]; auto. }
  split; [exact Hcases|].
  apply Forall_forall. intros c Hin. rewrite Forall_forall in Hall.
  split; [now destruct (Hall c Hin) as (_ & _ & ? & _)|].
  destruct Hcases as [H|[H|(c0 & -> & H)]].
  - rewrite Forall_forall in H. rewrite (H c Hin). split; discriminate.
  - rewrite Forall_forall in H. destruct (H c Hin) as [-> | ->]; split; discriminate.
  - destruct Hin as [<-|[]]. rewrite H. split; discriminate.
Qed.

Lemma candidate_kept ev reads b pos p :
  candidate_positions ev reads b = Ok pos ->
  In p (keys pos) ->
  position_kept ev (reads_at reads (orient b) p) = true.
Proof.
  intros H Hin. rewrite (candidate_positions_order _ _ _ _ H) in Hin.
  now apply filter_In in Hin as [_ Hin].
Qed.

Lemma position_kept_thresholds ev rs :
  position_kept ev rs = true ->
  min_splits_reads_resolution ev <= len rs
  /\ min_non_target_aligned_split_reads ev <= non_targeted rs.
Proof.
  unfold position_kept.
  destruct (Z.ltb_spec (len rs) (min_splits_reads_resolution ev)); [discriminate|].
  destruct (Z.ltb_spec (non_targeted rs) (min_non_target_aligned_split_reads ev));
    [discriminate|]. auto.
Qed.

(** X4.  A side that the split-read resolver calls by split reads is the point
    at a position where enough reads of that side break: at least
    [min_splits_reads_resolution] of them, of which at least
    [min_non_target_aligned_split_reads] are not targeted re-alignments. *)
Theorem split_sides_meet_the_thresholds ev et l c :
  _call_by_supporting_reads ev et = Ok l ->
  In c l ->
  (fst (call_method c) = SPLIT ->
   exists pos,
     break1 (ec_pair c) = at_position (break1 (ev_pair ev)) pos
     /\ min_splits_reads_resolution ev
        <= len (reads_at (fst (split_reads ev)) (orient (break1 (ev_pair ev))) pos)
     /\ min_non_target_aligned_split_reads ev
        <= non_targeted
             (reads_at (fst (split_reads ev)) (orient (break1 (ev_pair ev))) pos))
  /\ (snd (call_method c) = SPLIT ->
      exists pos,
        break2 (ec_pair c) = at_position (break2 (ev_pair ev)) pos
        /\ min_splits_reads_resolution ev
           <= len (reads_at (snd (split_reads ev)) (orient (break2 (ev_pair ev))) pos)
        /\ min_non_target_aligned_split_reads ev
           <= non_targeted
                (reads_at (snd (split_reads ev)) (orient (break2 (ev_pair ev))) pos)).
Proof.
  intros H Hin. apply supporting_reads_inv in H.
  destruct H as (pos1 & pos2 & Hp1 & Hp2 & _ & Hall & _).
  rewrite Forall_forall in Hall.
  destruct (Hall c Hin) as (_ & _ & _ & _ & _ & _ & _ & _ & _ & H1 & H2).
  split; intros Hm.
  - destruct (H1 Hm) as (pos & Hpos & Hb). exists pos. split; [exact Hb|].
    apply position_kept_thresholds. exact (candidate_kept _ _ _ _ _ Hp1 Hpos).
  - destruct (H2 Hm) as (pos & Hpos & Hb). exists pos. split; [exact Hb|].
    apply position_kept_thresholds. exact (candidate_kept _ _ _ _ _ Hp2 Hpos).
Qed.

(** X5.  Every call of the two pairing stages joins a candidate of each side, in
    order on one chromosome; it is either a linked combination, with enough
    linking reads, or a combination of two candidates that no linked
    combination uses. *)
Theorem split_pairings_calls_sound ev et pos1 pos2 calls c :
  split_pairings ev et pos1 pos2 = Ok calls ->
  In c calls ->
  exists first second,
    c = mk_split_call ev et first second
    /\ In first (keys pos1) /\ In second (keys pos2)
    /\ ordered c
    /\ ((In (first, second) (linked_positions ev pos1 pos2)
         /\ min_linking_split_reads ev <= links pos1 pos2 first second)
        \/ (~ In first (map fst (linked_positions ev pos1 pos2))
            /\ ~ In second (map snd (linked_positions ev pos1 pos2)))).
Proof.
  intros H Hin.
  pose proof (split_pairings_Forall _ _ _ _ _ H) as Hall.
  rewrite Forall_forall in Hall.
  destruct (Hall c Hin) as [(_ & _ & _ & Hcl & _) _].
  pose proof (split_pairings_ordered _ _ _ _ _ _ Hcl H Hin) as Hord.
  rewrite (split_pairings_spec _ _ _ _ Hcl) in H. injection H as <-.
  apply in_map_iff in Hin as [[first second] [<- Hfs]].
  exists first, second. split; [reflexivity|].
  apply in_app_or in Hfs as [Hl|Hu].
  - pose proof Hl as Hl'. unfold linked_positions in Hl'.
    apply filter_In in Hl' as [Hprod Hcond].
    apply in_prod_iff in Hprod as [H1 H2].
    apply andb_true_iff in Hcond as [_ Hlinks]. apply negb_true_iff in Hlinks.
    simpl in Hlinks.
    split; [exact H1|]. split; [exact H2|]. split; [exact Hord|].
    left. split; [exact Hl|]. apply Z.ltb_ge. exact Hlinks.
  - unfold unlinked_positions in Hu. apply filter_In in Hu as [Hprod _].
    apply in_prod_iff in Hprod as [H1 H2].
    unfold leftover in H1, H2.
    apply filter_In in H1 as [H1 N1]. apply filter_In in H2 as [H2 N2].
    split; [exact H1|]. split; [exact H2|]. split; [exact Hord|].
    right. split.
    + destruct (Z_in_spec first (map fst (linked_positions ev pos1 pos2)));
        [discriminate|assumption].
    + destruct (Z_in_spec second (map snd (linked_positions ev pos1 pos2)));
        [discriminate|assumption].
Qed.

Lemma collect_positions_total reads o d0 :
  (forall read e, breakpoint_pos read o = Raise e -> kind e = AttributeError) ->
  exists d, collect_positions reads o d0 = Ok d.
Proof.
  intros Herr. revert d0. induction reads as [|read rest IH]; intros d0; simpl.
  - now exists d0.
  - destruct (breakpoint_pos read o) as [bpos|e] eqn:E; [apply IH|].
    rewrite (Herr _ _ E). apply IH.
Qed.

Lemma flanking_call_raise_inv ev et fc sc kws m1 m2 e :
  svtype_in et (classify (ev_pair ev)) = true ->
  bind_arguments "__init__" EventCall_params 5 4 kws = Ok tt ->
  flanking_call ev et fc sc kws (Some m1) m2 = Raise e ->
  _call_by_flanking_pairs ev et fc sc = Raise e.
Proof.
  intros Hcl Hb. unfold flanking_call.
  destruct (_call_by_flanking_pairs ev et fc sc) as [[f s]|e']; cbn [bind fst snd].
  - unfold new_EventCall. rewrite Hb. cbn [bind].
    unfold EventCall___init__, BreakpointPair___init__. cbn [bind].
    rewrite Hcl. cbn [negb]. destruct m2; discriminate.
  - intros H. injection H as <-. reflexivity.
Qed.

Lemma mixed_first_loop_total ev et positions acc errs :
  (forall pos e,
      flanking_call ev et (Some (at_position (break1 (ev_pair ev)) pos)) None
        ["call_method"; "break2_call_method"] (Some SPLIT) (Some FLANK) = Raise e ->
      caught e = true) ->
  exists r, mixed_first_loop ev et positions acc errs = Ok r.
Proof.
  intros Hc. revert acc errs.
  induction positions as [|pos rest IH]; intros acc errs; simpl.
  - eexists. reflexivity.
  - destruct (flanking_call ev et (Some (at_position (break1 (ev_pair ev)) pos)) None
                ["call_method"; "break2_call_method"] (Some SPLIT) (Some FLANK))
      as [c|e] eqn:E; [apply IH|].
    rewrite (Hc _ _ E). apply IH.
Qed.

Lemma mixed_second_loop_total ev et positions acc errs :
  (forall pos e,
      flanking_call ev et None (Some (at_position (break2 (ev_pair ev)) pos))
        ["call_method"; "break2_call_method"] (Some FLANK) (Some SPLIT) = Raise e ->
      caught e = true) ->
  exists r, mixed_second_loop ev et positions acc errs = Ok r.
Proof.
  intros Hc. revert acc errs.
  induction positions as [|pos rest IH]; intros acc errs; simpl.
  - eexists. reflexivity.
  - destruct (flanking_call ev et None (Some (at_position (break2 (ev_pair ev)) pos))
                ["call_method"; "break2_call_method"] (Some FLANK) (Some SPLIT))
      as [c|e] eqn:E; [apply IH|].
    rewrite (Hc _ _ E). apply IH.
Qed.

(** Where the collaborators and the evidence are as the resolver expects
    them, the only failure of the split-read resolver is the [UserWarning]
    it raises itself. *)
Lemma supporting_reads_raise_inv ev et e :
  (forall read o e', breakpoint_pos read o = Raise e' -> kind e' = AttributeError) ->
  orient (break1 (ev_pair ev)) <> ORIENT_NS ->
  orient (break2 (ev_pair ev)) <> ORIENT_NS ->
  1 <= min_flanking_pairs_resolution ev ->
  svtype_in et (classify (ev_pair ev)) = true ->
  _call_by_supporting_reads ev et = Raise e ->
  kind e = UserWarning.
Proof.
  intros Herr Ho1 Ho2 Hmin Hcl. unfold _call_by_supporting_reads, candidate_positions.
  destruct (collect_positions_total (fst (split_reads ev))
              (orient (break1 (ev_pair ev))) [] (fun r e' => Herr r _ e')) as [d1 ->].
  destruct (collect_positions_total (snd (split_reads ev))
              (orient (break2 (ev_pair ev))) [] (fun r e' => Herr r _ e')) as [d2 ->].
  cbn [bind]. rewrite (split_pairings_spec _ _ _ _ Hcl). cbn [bind].
  match goal with |- (if ?b then _ else _) = _ -> _ => destruct b end;
    [|discriminate].
  assert (Hcaught : forall fc sc kws m1 m2 e',
             fc = None \/ sc = None ->
             bind_arguments "__init__" EventCall_params 5 4 kws = Ok tt ->
             flanking_call ev et fc sc kws (Some m1) m2 = Raise e' ->
             caught e' = true).
  { intros fc sc kws m1 m2 e' Hnb Hb He.
    apply (flanking_call_raise_inv _ _ _ _ _ _ _ _ Hcl Hb) in He.
    unfold caught. now rewrite (flanking_raise_inv _ _ _ _ _ Hnb Ho1 Ho2 Hmin He). }
  match goal with
  | |- bind (mixed_first_loop ?a ?b ?c ?d ?f) _ = _ -> _ =>
      destruct (mixed_first_loop_total a b c d f) as [r1 ->]
  end.
  { intros pos e'. apply Hcaught; [now right|reflexivity]. }
  cbn [bind].
  match goal with
  | |- bind (mixed_second_loop ?a ?b ?c ?d ?f) _ = _ -> _ =>
      destruct (mixed_second_loop_total a b c d f) as [r2 ->]
  end.
  { intros pos e'. apply Hcaught; [now left|reflexivity]. }
  cbn [bind].
  destruct (len (fst r2) =? 0) eqn:E2.
  - unfold flanking_only.
    destruct (flanking_call ev et None None ["call_method"] (Some FLANK) None)
      as [c|e'] eqn:Ef.
    + cbn [bind fst].
      match goal with |- (if ?b then _ else _) = _ -> _ => destruct b end;
        [|discriminate].
      intros H. injection H as <-. reflexivity.
    + rewrite (Hcaught None None ["call_method"] FLANK None e'
                 (or_introl eq_refl) eq_refl Ef). cbn [bind fst].
      rewrite E2. intros H. injection H as <-. reflexivity.
  - cbn [bind]. rewrite E2. discriminate.
Qed.

(** X2.  With no contigs, and the collaborators and the evidence as the
    resolvers expect them, a request that [call_events] accepts ends in a
    list of calls or in a [UserWarning], never in another exception. *)
Theorem call_events_failure_is_UserWarning ev et e :
  (forall read o e', breakpoint_pos read o = Raise e' -> kind e' = AttributeError) ->
  contigs ev = [] ->
  orient (break1 (ev_pair ev)) <> ORIENT_NS ->
  orient (break2 (ev_pair ev)) <> ORIENT_NS ->
  1 <= min_flanking_pairs_resolution ev ->
  svtype_in et (putative_event_types ev) = true ->
  svtype_in et (classify (ev_pair ev)) = true ->
  call_events ev et = Raise e ->
  kind e = UserWarning.
Proof.
  intros Herr Hctg Ho1 Ho2 Hmin Hput Hcl.
  unfold call_events, call_events_with, _call_by_contigs.
  rewrite Hput, Hctg. cbn [negb contigs_loop bind app].
  change (len (@nil EventCall) =? 0) with true. cbv iota.
  destruct (_call_by_supporting_reads ev et) as [a|e'] eqn:Es.
  - cbn [bind fst snd app].
    repeat match goal with
           | |- (if ?b then _ else _) = _ -> _ => destruct b
           end; try discriminate; intros H; injection H as <-; reflexivity.
  - rewrite (supporting_reads_raise_inv _ _ _ Herr Ho1 Ho2 Hmin Hcl Es).
    cbn [bind fst snd].
    repeat match goal with
           | |- (if ?b then _ else _) = _ -> _ => destruct b
           end; try discriminate; intros H; injection H as <-; reflexivity.
Qed.

End ResolverResults.

(** ** Candidate positions and the two support counters *)
Section Counters.
Context {collab : Collaborators}.

Lemma fold_see_In xs acc p : In p (fold_left see xs acc) <-> In p acc \/ In p xs.
Proof.
  revert acc. induction xs as [|x xs IH]; intros acc; simpl; [tauto|].
  rewrite IH. unfold see. destruct (Z_in_spec x acc) as [Hi|Hn].
  - split; [tauto|]. intros [H|[<-|H]]; auto.
  - rewrite in_app_iff. simpl. tauto.
Qed.

Lemma lookup_filter_kept (f : list Read -> bool) d p :
  NoDup (keys d) -> In p (keys d) -> f (lookup p d) = true ->
  lookup p (filter (fun kv => f (snd kv)) d) = lookup p d.
Proof.
  induction d as [|[k rs] r IH]; intros Hnd Hin Hf; [reflexivity|].
  simpl in Hnd. inversion Hnd as [|? ? Hk Hr]; subst.
  destruct (Z.eq_dec p k) as [->|Hne].
  - assert (Hl : lookup k ((k, rs) :: r) = rs).
    { unfold lookup. simpl. now rewrite Z.eqb_refl. }
    rewrite Hl in *. cbn [filter snd]. rewrite Hf.
    unfold lookup. simpl. now rewrite Z.eqb_refl.
  - rewrite lookup_not_head in * by exact Hne.
    destruct Hin as [Heq|Hin]; [simpl in Heq; congruence|].
    cbn [filter snd]. destruct (f rs).
    + rewrite lookup_not_head by exact Hne. now apply IH.
    + now apply IH.
Qed.

(** X6.  The dictionary of candidates of one side: its keys are distinct, they
    are the positions at which reads of the side break and pass the two
    thresholds, and each key holds the reads that break there, in the order
    of the side. *)
Theorem candidate_positions_sound ev reads b pos :
  candidate_positions ev reads b = Ok pos ->
  NoDup (keys pos)
  /\ (forall p, In p (keys pos) <->
                In p (read_positions reads (orient b))
                /\ position_kept ev (reads_at reads (orient b) p) = true)
  /\ (forall p, In p (keys pos) -> lookup p pos = reads_at reads (orient b) p).
Proof.
  intros H. pose proof (candidate_positions_order _ _ _ _ H) as Hk.
  unfold candidate_positions in H.
  destruct (collect_positions reads (orient b) []) as [d|] eqn:E; [|discriminate].
  cbn [bind] in H. injection H as <-.
  pose proof (collect_positions_keys _ _ _ _ E) as Hkd. simpl in Hkd.
  assert (Hnd : NoDup (keys d)).
  { rewrite Hkd. apply fold_see_NoDup. constructor. }
  assert (Hin : forall p, In p (keys (prune_positions ev d)) <->
                          In p (read_positions reads (orient b))
                          /\ position_kept ev (reads_at reads (orient b) p) = true).
  { intros p. rewrite Hk, filter_In. unfold first_occurrences.
    rewrite fold_see_In. simpl. tauto. }
  split; [|split; [exact Hin|]].
  - rewrite Hk. apply NoDup_filter. unfold first_occurrences.
    apply fold_see_NoDup. constructor.
  - intros p Hp. apply Hin in Hp as [Hp Hkept]. unfold prune_positions.
    pose proof (collect_positions_lookup _ _ _ _ p E) as Hl. simpl in Hl.
    rewrite lookup_filter_kept.
    + exact Hl.
    + exact Hnd.
    + rewrite Hkd. apply fold_see_In. now right.
    + now rewrite Hl.
Qed.

Lemma add_all_incl names : incl (add_all names []) names.
Proof. intros x Hx. apply add_all_In in Hx as [[]|Hx]. exact Hx. Qed.

Lemma len_le_of_incl (a b : list string) : NoDup a -> incl a b -> len a <= len b.
Proof.
  intros Hn Hi. unfold len. apply inj_le. now apply NoDup_incl_length.
Qed.

Lemma len_map_filter (f : Read -> bool) reads :
  len (map query_name (filter f reads)) <= len reads.
Proof.
  unfold len. rewrite length_map. apply inj_le, filter_length_le.
Qed.

(** X14.  The five counts are ordered as sets are: on each side the forced
    re-alignments are among the supporting names, which are no more than
    the reads of the side, and the linking names are among the supporting
    names of both sides. *)
Theorem count_split_read_support_bounds (self : EventCall) :
  (forall read o e, breakpoint_pos read o = Raise e -> kind e = AttributeError) ->
  exists s1 r1 s2 r2 l,
    count_split_read_support self = Ok (s1, r1, s2, r2, l)
    /\ 0 <= r1 <= s1 /\ s1 <= len (fst (split_reads (evidence self)))
    /\ 0 <= r2 <= s2 /\ s2 <= len (snd (split_reads (evidence self)))
    /\ 0 <= l /\ l <= s1 /\ l <= s2.
Proof.
  intros Herr. unfold count_split_read_support.
  rewrite !split_support_loop_spec by (intros r e _ Hr; exact (Herr _ _ _ Hr)).
  cbn [bind fst snd]. do 5 eexists. split; [reflexivity|].
  set (b1 := break1 (ec_pair self)). set (b2 := break2 (ec_pair self)).
  set (reads1 := fst (split_reads (evidence self))).
  set (reads2 := snd (split_reads (evidence self))).
  assert (Hsub : forall b reads,
             incl (add_all (map query_name
                              (filter (fun r => exactly_at b r && is_targeted r) reads)) [])
                  (add_all (map query_name (filter (exactly_at b) reads)) [])).
  { intros b reads n Hn. apply add_all_In. right.
    apply add_all_incl, names_of_filter in Hn as (read & Hin & Hq & Hf).
    apply names_of_filter. exists read. apply andb_true_iff in Hf as [Hf _]. auto. }
  assert (Hlen : forall b reads,
             len (add_all (map query_name (filter (exactly_at b) reads)) [])
             <= len reads).
  { intros b reads. etransitivity; [|apply (len_map_filter (exactly_at b))].
    apply len_le_of_incl; [apply add_all_NoDup; constructor|apply add_all_incl]. }
  assert (Hpos : forall (x : list string), 0 <= len x) by (intros x; unfold len; lia).
  repeat split; try apply Hpos; try apply Hlen.
  - apply len_le_of_incl; [apply add_all_NoDup; constructor|apply Hsub].
  - apply len_le_of_incl; [apply add_all_NoDup; constructor|apply Hsub].
  - unfold set_inter, len. apply inj_le, filter_length_le.
  - apply len_le_of_incl.
    + apply NoDup_filter, add_all_NoDup. constructor.
    + intros n Hn. unfold set_inter in Hn. apply filter_In in Hn as [_ Hn].
      now destruct (str_in_spec n
                      (add_all (map query_name (filter (exactly_at b2) reads2)) [])).
Qed.

Lemma exactly_at_point_is_next_candidate b p reads :
  filter (exactly_at (at_position b p)) reads = reads_at reads (orient b) (p + 1).
Proof.
  unfold reads_at. apply filter_ext. intros read. unfold exactly_at. simpl.
  destruct (breakpoint_pos read (orient b)) as [bpos|]; [|reflexivity].
  unfold overlaps. simpl.
  destruct (Z.ltb_spec bpos p), (Z.gtb_spec bpos p), (Z.eqb_spec (bpos + 1) (p + 1));
    simpl; try reflexivity; lia.
Qed.

Lemma targeted_at_point_is_next_candidate b p reads :
  filter (fun r => exactly_at (at_position b p) r && is_targeted r) reads
  = filter is_targeted (reads_at reads (orient b) (p + 1)).
Proof.
  rewrite <- exactly_at_point_is_next_candidate.
  induction reads as [|read rest IH]; [reflexivity|]. simpl.
  destruct (exactly_at (at_position b p) read); simpl; rewrite IH; reflexivity.
Qed.

(** X15.  The resolver and the counter composed: for a call that the pairing
    stages build at the positions [p1] and [p2], the counter counts the
    names of the reads whose candidate position in the resolver is [p1 + 1]
    on the first side and [p2 + 1] on the second. *)
Theorem split_call_support_is_of_next_position ev et p1 p2 :
  (forall read o e, breakpoint_pos read o = Raise e -> kind e = AttributeError) ->
  let at1 := reads_at (fst (split_reads ev)) (orient (break1 (ev_pair ev))) (p1 + 1) in
  let at2 := reads_at (snd (split_reads ev)) (orient (break2 (ev_pair ev))) (p2 + 1) in
  count_split_read_support (mk_split_call ev et p1 p2)
  = Ok (len (add_all (map query_name at1) []),
        len (add_all (map query_name (filter is_targeted at1)) []),
        len (add_all (map query_name at2) []),
        len (add_all (map query_name (filter is_targeted at2)) []),
        len (set_inter (add_all (map query_name at1) [])
                       (add_all (map query_name at2) []))).
Proof.
  intros Herr at1 at2. unfold count_split_read_support.
  rewrite !split_support_loop_spec by (intros r e _ Hr; exact (Herr _ _ _ Hr)).
  cbn [bind fst snd mk_split_call ec_pair evidence break1 break2].
  rewrite !exactly_at_point_is_next_candidate, !targeted_at_point_is_next_candidate.
  reflexivity.
Qed.





End Counters.

(** ** The statistics of the flanking support *)
Section FlankingStatistics.
Context {collab : Collaborators}.













End FlankingStatistics.

(** * Behaviour at the sample evidence *)

Import Sample.

(** C1 (Scenario A).  The alignment pair of the contig implies the
    breakpoints chr1:100 (LEFT) and chr1:500 (RIGHT) with an empty
    untemplated sequence, and the candidate passes the three tests of the
    resolver for a deletion; the construction of the call then raises
    [TypeError], from the resolver and from [call_events], instead of
    yielding one call with the methods (CONTIG, CONTIG). *)
Theorem C1_scenario_A_raises_TypeError :
  (exists bpp,
      call_breakpoint_pair (read_at "ctg" 0 100 0)
        (Some (read_at "ctg" 499 600 0)) = Ok bpp
      /\ bp_interval (break1 bpp) = {| i_start := 100; i_end := 100 |}
      /\ orient (break1 bpp) = LEFT
      /\ bp_interval (break2 bpp) = {| i_start := 500; i_end := 500 |}
      /\ orient (break2 bpp) = RIGHT
      /\ untemplated_sequence bpp = Some ""
      /\ opposing_strands bpp = opposing_strands (ev_pair evidence_A)
      /\ svtype_in DEL (classify bpp) = true)
  /\ svtype_in DEL (putative_event_types evidence_A) = true
  /\ _call_by_contigs evidence_A DEL
     = raise TypeError
         [AStr "__init__() got an unexpected keyword argument 'alignment'"]
  /\ call_events evidence_A DEL
     = raise TypeError
         [AStr "__init__() got an unexpected keyword argument 'alignment'"].
Proof.
  split; [eexists; repeat split|]; repeat split; reflexivity.
Qed.

(** Witness of C2: a contig resolver that yields one call, next to a
    split-read resolver that would raise. *)
Lemma C2_contig_calls_are_the_result_witness :
  call_events_with
    (fun _ _ => Ok [call_at evidence_A DEL 100 500])
    (fun _ _ => raise TypeError [])
    evidence_A DEL
  = Ok [call_at evidence_A DEL 100 500].
Proof.
  apply C2_contig_calls_are_the_result; [reflexivity|reflexivity|discriminate].
Defined.

(** C3, as stated, fails on [evidence_C]: the linked pairing yields the
    call (100, 500), and the resolver also returns the call (200, 600),
    built from the leftover candidates, which share no read name. *)
Lemma C3_unlinked_pairing_runs_after_linked_calls :
  ~ unlinked_only_without_linked evidence_C DEL.
Proof.
  intros H.
  specialize (H positions_C1 positions_C2
                [mk_split_call evidence_C DEL 100 500]
                eq_refl eq_refl eq_refl).
  assert (Hne : [mk_split_call evidence_C DEL 100 500] <> []) by discriminate.
  specialize (H Hne). vm_compute in H. discriminate H.
Qed.

(** Witness of C3 as amended, on [evidence_C]: the linked call (100, 500)
    followed by the leftover call (200, 600). *)
Lemma C3_linked_calls_then_leftover_calls_witness :
  _call_by_supporting_reads evidence_C DEL
  = Ok (map (fun fs => mk_split_call evidence_C DEL (fst fs) (snd fs))
          (linked_positions evidence_C positions_C1 positions_C2
           ++ unlinked_positions evidence_C positions_C1 positions_C2))
  /\ linked_positions evidence_C positions_C1 positions_C2 = [(100, 500)]
  /\ unlinked_positions evidence_C positions_C1 positions_C2 = [(200, 600)].
Proof.
  split; [|split; reflexivity].
  apply C3_linked_calls_then_leftover_calls;
    [reflexivity|reflexivity|reflexivity|vm_compute; discriminate].
Defined.

(** C4 (failing input [evidence_E]).  The first side is fixed by split
    reads at 900, the second is bounded by flanking pairs to 450..799 on
    the same chromosome: the call (SPLIT, FLANK) is returned with its first
    breakpoint after its second one. *)
Theorem C4_mixed_call_breaks_ordering :
  exists c,
    call_events evidence_E DUP = Ok [c]
    /\ call_method c = (SPLIT, FLANK)
    /\ chr (break1 (ec_pair c)) = chr (break2 (ec_pair c))
    /\ bp_interval (break1 (ec_pair c)) = {| i_start := 900; i_end := 900 |}
    /\ bp_interval (break2 (ec_pair c)) = {| i_start := 450; i_end := 799 |}
    /\ ~ ordered c.
Proof.
  eexists. split; [vm_compute; reflexivity|].
  repeat split. unfold ordered. simpl. intros H. specialize (H eq_refl). lia.
Qed.

(** C5 (failing input [evidence_G]).  The call of Scenario B with one
    flanking pair in the evidence, for a deletion: counting the flanking
    support raises [NameError] instead of returning a count, a median and
    a deviation. *)
Theorem C5_flanking_support_raises_NameError :
  exists c,
    call_events evidence_G DEL = Ok [c]
    /\ event_type c = DEL
    /\ len (flanking_pairs (evidence c)) = 1
    /\ count_flanking_support c
       = raise NameError [AStr "name 'exp_isize_range' is not defined"].
Proof.
  eexists. split; [vm_compute; reflexivity|]. repeat split.
Qed.

(** C7 (Scenario B, failing input [evidence_B]).  The resolver pairs the
    candidates 100 and 500 on six linking reads and [call_events] returns
    the single call (SPLIT, SPLIT); but the support counter compares the
    breakpoint positions of the reads, 99 and 499, with the call's 100 and
    500, and reports no support and no linking read. *)
Theorem C7_scenario_B_linking_support_is_zero :
  exists c,
    call_events evidence_B DEL = Ok [c]
    /\ call_method c = (SPLIT, SPLIT)
    /\ bp_interval (break1 (ec_pair c)) = {| i_start := 100; i_end := 100 |}
    /\ bp_interval (break2 (ec_pair c)) = {| i_start := 500; i_end := 500 |}
    /\ (exists pos1 pos2,
           candidate_positions evidence_B (fst (split_reads evidence_B))
             (break1 (ev_pair evidence_B)) = Ok pos1
           /\ candidate_positions evidence_B (snd (split_reads evidence_B))
                (break2 (ev_pair evidence_B)) = Ok pos2
           /\ keys pos1 = [100] /\ keys pos2 = [500]
           /\ len (lookup 100 pos1) = 6 /\ len (lookup 500 pos2) = 6
           /\ links pos1 pos2 100 500 = 6)
    /\ count_split_read_support c = Ok (0, 0, 0, 0, 0).
Proof.
  eexists. split; [vm_compute; reflexivity|].
  repeat split.
  eexists. eexists. split; [vm_compute; reflexivity|].
  split; [vm_compute; reflexivity|]. repeat split.
Qed.

(** C8, as stated, fails on [evidence_D]: the candidates of the first side
    are enumerated as 300, 100, the order of the reads, and the calls come
    out in that order. *)
Lemma C8_enumeration_is_not_sorted :
  ~ enumeration_sorted evidence_D.
Proof.
  intros H. specialize (H positions_D1 eq_refl 0%nat 1%nat).
  simpl in H. lia.
Qed.

(** Witness of C8 as amended, on [evidence_D]. *)
Lemma C8_first_seen_order_and_determinism_witness :
  keys positions_D1 = [300; 100]
  /\ first_occurrences
       (read_positions (fst (split_reads evidence_D)) LEFT) = [300; 100]
  /\ (exists c1 c2,
         call_events evidence_D DEL = Ok [c1; c2]
         /\ @call_events (with_set_iter collab (@rev string)) evidence_D DEL
            = Ok [c1; c2]
         /\ start (break1 (ec_pair c1)) = 300
         /\ start (break1 (ec_pair c2)) = 100).
Proof.
  destruct (C8_first_seen_order_and_determinism evidence_D DEL)
    as (H1 & _ & _ & H4).
  split; [reflexivity|]. split; [reflexivity|].
  eexists. eexists. split; [vm_compute; reflexivity|].
  split; [|split; reflexivity].
  apply H4. vm_compute. reflexivity.
Defined.

(** C9 (failing input [evidence_F]).  Three distinct failures are
    collected; with sets iterated in insertion order the caller sees them
    joined in the order 900, 800, None, which is not the sorted one. *)
Theorem C9_failure_messages_not_sorted :
  call_events evidence_F DEL = raise UserWarning [AStr (join ";" messages_F)]
  /\ NoDup messages_F
  /\ sorted messages_F
     = [incompatible_F (Some (point "chr1" 800 RIGHT));
        incompatible_F (Some (point "chr1" 900 RIGHT));
        incompatible_F None]
  /\ join ";" messages_F <> join ";" (sorted messages_F).
Proof.
  split; [vm_compute; reflexivity|].
  split.
  { repeat constructor; vm_compute; intuition discriminate. }
  split; [vm_compute; reflexivity|].
  vm_compute. discriminate.
Qed.

(** The sample [breakpoint_pos] raises nothing but [AttributeError]. *)
Lemma sample_breakpoint_pos_errors read o e :
  breakpoint_pos read o = Raise e -> kind e = AttributeError.
Proof.
  simpl. unfold sample_breakpoint_pos.
  destruct (String.eqb (query_name read) "").
  - intros H. injection H as <-. reflexivity.
  - destruct o; discriminate.
Qed.

(** On [evidence_H] the first side is bounded to 150..399 and the second to
    151..400, beside the coverage 100..150 and 400..450. *)
Lemma flanking_bounds_fit_fragment_size_witness :
  exists c1 c2,
    flanking_covers evidence_H DEL = Ok (c1, c2)
    /\ (@None Breakpoint = None ->
        150 <= 399 /\ interval_len c1 + (399 - 150) + 50 * 2 <= 500)
    /\ (@None Breakpoint = None ->
        151 <= 400 /\ interval_len c2 + (400 - 151) + 50 * 2 <= 500).
Proof.
  apply (flanking_bounds_fit_fragment_size evidence_H DEL None None
           (region "chr1" 150 399 LEFT) (region "chr1" 151 400 RIGHT)).
  vm_compute. reflexivity.
Defined.

Lemma flanking_bounds_touch_coverage_witness :
  exists c1 c2,
    flanking_covers evidence_H DEL = Ok (c1, c2)
    /\ (@None Breakpoint = None ->
        "chr1" = "chr1" /\ LEFT = LEFT /\ STRAND_NS = STRAND_NS
        /\ (LEFT = LEFT -> 150 = i_end c1)
        /\ (LEFT = RIGHT -> 399 = Z.max (i_start c1) 1 /\ 1 <= 150))
    /\ (@None Breakpoint = None ->
        "chr1" = "chr1" /\ RIGHT = RIGHT /\ STRAND_NS = STRAND_NS
        /\ (RIGHT = LEFT -> 151 = i_end c2)
        /\ (RIGHT = RIGHT -> 400 = i_start c2 /\ 1 <= 151)).
Proof.
  apply (flanking_bounds_touch_coverage evidence_H DEL None None
           (region "chr1" 150 399 LEFT) (region "chr1" 151 400 RIGHT)).
  vm_compute. reflexivity.
Defined.

Lemma flanking_clamped_sides_keep_order_witness :
  exists c1 c2,
    flanking_covers evidence_H DEL = Ok (c1, c2)
    /\ (@None Breakpoint = None -> RIGHT = RIGHT -> 150 < 151 /\ i_end c1 < 151)
    /\ (@None Breakpoint = None -> LEFT = LEFT ->
        399 < i_start c2 /\ forall sb, None = Some sb -> 399 < end_ sb).
Proof.
  apply (flanking_clamped_sides_keep_order evidence_H DEL None None
           (region "chr1" 150 399 LEFT) (region "chr1" 151 400 RIGHT));
    vm_compute; reflexivity.
Defined.

(** On [evidence_E] the first side, fixed at 900, comes back as given. *)
Lemma flanking_fixed_side_is_returned_witness :
  (Some (point "chr1" 900 RIGHT) = None \/ @None Breakpoint = None)
  /\ (forall b, Some (point "chr1" 900 RIGHT) = Some b -> point "chr1" 900 RIGHT = b)
  /\ (forall b, None = Some b -> region "chr1" 450 799 LEFT = b).
Proof.
  apply (flanking_fixed_side_is_returned evidence_E DUP
           (Some (point "chr1" 900 RIGHT)) None).
  vm_compute. reflexivity.
Defined.

(** On [evidence_F] the second side fixed at 900 conflicts with the
    coverage of the first side. *)
Lemma flanking_failure_is_AssertionError_witness :
  kind (Exn AssertionError
          [AStr msg_incompatible; AInterval {| i_start := 1000; i_end := 1100 |};
           ABreakpoint (Some (point "chr1" 900 RIGHT))]) = AssertionError
  /\ caught (Exn AssertionError
               [AStr msg_incompatible; AInterval {| i_start := 1000; i_end := 1100 |};
                ABreakpoint (Some (point "chr1" 900 RIGHT))]) = true.
Proof.
  apply (flanking_failure_is_AssertionError evidence_F DEL None
           (Some (point "chr1" 900 RIGHT))).
  - now left.
  - discriminate.
  - discriminate.
  - vm_compute. discriminate.
  - vm_compute. reflexivity.
Defined.

Lemma flanking_without_pairs_raises_ValueError_witness :
  _call_by_flanking_pairs evidence_I DEL None None
  = raise ValueError [AStr "min() arg is an empty sequence"].
Proof.
  apply flanking_without_pairs_raises_ValueError.
  - now left.
  - reflexivity.
  - vm_compute. discriminate.
Defined.

Lemma flanking_overlapping_coverage_fails_witness :
  _call_by_flanking_pairs evidence_J DEL None None
  = raise AssertionError
      [AStr msg_coverage_overlaps;
       AInterval {| i_start := 100; i_end := 300 |};
       AInterval {| i_start := 250; i_end := 450 |}].
Proof.
  apply flanking_overlapping_coverage_fails.
  - now left.
  - vm_compute. discriminate.
  - vm_compute. reflexivity.
  - reflexivity.
  - reflexivity.
Defined.

(** Scenario B: one call, for the deletion asked for. *)
Lemma call_events_calls_answer_request_witness :
  [mk_split_call evidence_B DEL 100 500] <> []
  /\ svtype_in DEL (putative_event_types evidence_B) = true
  /\ forall c, In c [mk_split_call evidence_B DEL 100 500] ->
       event_type c = DEL /\ evidence c = evidence_B
       /\ svtype_in DEL (classify (ev_pair evidence_B)) = true
       /\ opposing_strands (ec_pair c) = opposing_strands (ev_pair evidence_B)
       /\ same_locus (break1 (ec_pair c)) (break1 (ev_pair evidence_B))
       /\ same_locus (break2 (ec_pair c)) (break2 (ev_pair evidence_B))
       /\ start (break1 (ec_pair c)) <= end_ (break1 (ec_pair c))
       /\ start (break2 (ec_pair c)) <= end_ (break2 (ec_pair c)).
Proof.
  apply (call_events_calls_answer_request evidence_B DEL).
  vm_compute. reflexivity.
Defined.

(** [evidence_E]: one call of the mixed stage. *)
Lemma supporting_reads_stages_do_not_mix_witness :
  exists c,
    _call_by_supporting_reads evidence_E DUP = Ok [c]
    /\ call_method c = (SPLIT, FLANK)
    /\ (Forall (fun c => call_method c = (SPLIT, SPLIT)) [c]
        \/ Forall (fun c => mixed_methods (call_method c)) [c]
        \/ exists c', [c] = [c'] /\ call_method c' = (FLANK, FLANK))
    /\ Forall (fun c => contig c = None
                        /\ fst (call_method c) <> CONTIG
                        /\ snd (call_method c) <> CONTIG) [c].
Proof.
  eexists. split; [vm_compute; reflexivity|]. split; [reflexivity|].
  apply (supporting_reads_stages_do_not_mix evidence_E DUP).
  vm_compute. reflexivity.
Defined.

(** Scenario B: both sides of the call sit on six reads. *)
Lemma split_sides_meet_the_thresholds_witness :
  (SPLIT = SPLIT ->
   exists pos,
     point "chr1" 100 LEFT = at_position (break1 (ev_pair evidence_B)) pos
     /\ 5 <= len (reads_at (fst (split_reads evidence_B)) LEFT pos)
     /\ 1 <= non_targeted (reads_at (fst (split_reads evidence_B)) LEFT pos))
  /\ (SPLIT = SPLIT ->
      exists pos,
        point "chr1" 500 RIGHT = at_position (break2 (ev_pair evidence_B)) pos
        /\ 5 <= len (reads_at (snd (split_reads evidence_B)) RIGHT pos)
        /\ 1 <= non_targeted (reads_at (snd (split_reads evidence_B)) RIGHT pos)).
Proof.
  apply (split_sides_meet_the_thresholds evidence_B DEL
           [mk_split_call evidence_B DEL 100 500]
           (mk_split_call evidence_B DEL 100 500)).
  - vm_compute. reflexivity.
  - now left.
Defined.

(** [evidence_C]: the leftover call (200, 600) uses no linked position. *)
Lemma split_pairings_calls_sound_witness :
  exists first second,
    mk_split_call evidence_C DEL 200 600 = mk_split_call evidence_C DEL first second
    /\ In first (keys positions_C1) /\ In second (keys positions_C2)
    /\ ordered (mk_split_call evidence_C DEL 200 600)
    /\ ((In (first, second) (linked_positions evidence_C positions_C1 positions_C2)
         /\ min_linking_split_reads evidence_C
            <= links positions_C1 positions_C2 first second)
        \/ (~ In first (map fst (linked_positions evidence_C positions_C1 positions_C2))
            /\ ~ In second
                 (map snd (linked_positions evidence_C positions_C1 positions_C2)))).
Proof.
  apply (split_pairings_calls_sound evidence_C DEL positions_C1 positions_C2
           [mk_split_call evidence_C DEL 100 500;
            mk_split_call evidence_C DEL 200 600]).
  - vm_compute. reflexivity.
  - right. now left.
Defined.

(** [evidence_F]: every stage fails, and the caller sees a [UserWarning]. *)
Lemma call_events_failure_is_UserWarning_witness :
  kind (Exn UserWarning [AStr (join ";" messages_F)]) = UserWarning.
Proof.
  apply (call_events_failure_is_UserWarning evidence_F DEL).
  - apply sample_breakpoint_pos_errors.
  - reflexivity.
  - discriminate.
  - discriminate.
  - vm_compute. discriminate.
  - reflexivity.
  - reflexivity.
  - vm_compute. reflexivity.
Defined.

(** The first side of [evidence_D]: the keys 300 and 100, each with its read. *)
Lemma candidate_positions_sound_witness :
  NoDup (keys positions_D1)
  /\ (forall p, In p (keys positions_D1) <->
                In p (read_positions (fst (split_reads evidence_D)) LEFT)
                /\ position_kept evidence_D
                     (reads_at (fst (split_reads evidence_D)) LEFT p) = true)
  /\ (forall p, In p (keys positions_D1) ->
                lookup p positions_D1 = reads_at (fst (split_reads evidence_D)) LEFT p).
Proof.
  apply (candidate_positions_sound evidence_D (fst (split_reads evidence_D))
           (break1 (ev_pair evidence_D))).
  vm_compute. reflexivity.
Defined.

Lemma count_split_read_support_bounds_witness :
  exists s1 r1 s2 r2 l,
    count_split_read_support (call_at evidence_B DEL 99 499) = Ok (s1, r1, s2, r2, l)
    /\ 0 <= r1 <= s1 /\ s1 <= len (fst (split_reads evidence_B))
    /\ 0 <= r2 <= s2 /\ s2 <= len (snd (split_reads evidence_B))
    /\ 0 <= l /\ l <= s1 /\ l <= s2.
Proof.
  apply (count_split_read_support_bounds (call_at evidence_B DEL 99 499)).
  apply sample_breakpoint_pos_errors.
Defined.

(** Scenario B: the call at (100, 500) is counted against the candidate
    positions 101 and 501, where no read breaks. *)
Lemma split_call_support_is_of_next_position_witness :
  count_split_read_support (mk_split_call evidence_B DEL 100 500)
  = Ok (len (add_all (map query_name
                        (reads_at (fst (split_reads evidence_B)) LEFT 101)) []),
        len (add_all (map query_name
                        (filter is_targeted
                           (reads_at (fst (split_reads evidence_B)) LEFT 101))) []),
        len (add_all (map query_name
                        (reads_at (snd (split_reads evidence_B)) RIGHT 501)) []),
        len (add_all (map query_name
                        (filter is_targeted
                           (reads_at (snd (split_reads evidence_B)) RIGHT 501))) []),
        len (set_inter
               (add_all (map query_name
                           (reads_at (fst (split_reads evidence_B)) LEFT 101)) [])
               (add_all (map query_name
                           (reads_at (snd (split_reads evidence_B)) RIGHT 501)) []))).
Proof.
  apply (split_call_support_is_of_next_position evidence_B DEL 100 500).
  apply sample_breakpoint_pos_errors.
Defined.

(** C6 (failing input [evidence_K]).  The resolver places six reads of each
    side at the positions 100 and 500 and one read named [off] at 101 and
    501; [call_events] returns the call at 100/500.  On that call the
    counter counts, on both sides and as linking, the read [off] and none
    of the six reads whose position is the call's: it compares the
    breakpoint positions 99, 100 and 499, 500 with the call's 100 and 500. *)
Theorem C6_counter_counts_the_neighbouring_position :
  exists c,
    call_events evidence_K DEL = Ok [c]
    /\ call_method c = (SPLIT, SPLIT)
    /\ bp_interval (break1 (ec_pair c)) = {| i_start := 100; i_end := 100 |}
    /\ bp_interval (break2 (ec_pair c)) = {| i_start := 500; i_end := 500 |}
    /\ map query_name (reads_at (fst (split_reads evidence_K)) LEFT 100) = names6
    /\ map query_name (reads_at (fst (split_reads evidence_K)) LEFT 101) = ["off"]
    /\ map query_name (reads_at (snd (split_reads evidence_K)) RIGHT 500) = names6
    /\ map query_name (reads_at (snd (split_reads evidence_K)) RIGHT 501) = ["off"]
    /\ count_split_read_support c = Ok (1, 0, 1, 0, 1).
Proof.
  eexists. split; [vm_compute; reflexivity|]. repeat split.
Qed.

